(** * Sales API: request handlers and query construction

    A shallow embedding of [routes/sales.routes.js] (Express handlers over a
    drizzle table [salesData], declared in [DB/schema.js]) and the properties
    of its listing, lookup, create, update, delete, summary and top-products
    operations.

    Conventions of the embedding.
    - A JavaScript value reaching a handler is a JSON scalar ([JsVal]).  A
      JSON number is carried by its [String(x)] rendering: the handlers read
      numbers only through truthiness, [isNaN], [parseInt], [parseFloat] and
      [toString], and the last three all start from that rendering.  Arrays
      and nested objects as field values are outside the embedding.
    - A number computed by a handler ([parseInt], [Math.max], ...) is a
      double that is an integer, an infinity or [NaN] ([JsNum]): [parseInt]
      and the arithmetic round to the nearest double.  The counts and the
      sums of quantities that the engine returns are taken below 2^53, where
      [Number] and [parseInt] read them exactly.
    - A number that [parseFloat] reads from a decimal text of the engine is
      the double nearest to that decimal, and is carried by the decimal
      ([JsFloat]).
    - Strings are the UTF-8 bytes of JavaScript strings, without the NUL
      character (which the engine refuses in a text).
    - The relational engine is a list of typed rows; a statement either fails
      (the handler's [catch] answers 500) or returns rows.  A statement fails
      when a parameter has no value of its column's type ([NaN] or a number
      outside int4 for an integer column, Invalid Date or a date outside the
      years 1 to 9999 for the timestamp, a text of too many characters for
      its [varchar], a price [numeric(10, 2)] refuses), when NULL is written
      to a NOT NULL column, or when the sort field cannot be written into
      the statement.  AVG of a numeric is rounded as PostgreSQL rounds it.
    - SQL leaves open the order of rows without ORDER BY and of rows with
      equal sort keys; the embedding takes table order, and the rows an
      update rewrites keep their place.  Texts are ordered byte by byte (the
      C collation); equality of texts does not depend on the collation.
    - A reply carries the rows its statement returned; how the JSON shows
      them (drizzle reads the timestamp of a year below 100 back as another
      year) is not modelled.
    - [new Date(x)] and [parseFloat(x).toFixed(2)] are parameters of the
      handlers ([Date_new], [toFixed2]): date parsing and the decimal
      rendering of a double are not modelled. *)

From Stdlib Require Import ZArith QArith Qcanon Ascii String List Bool Lia.
From stdpp Require Import numbers gmap strings list fin_maps sorting.

Local Open Scope string_scope.
Local Open Scope Z_scope.

(* ===================================================================== *)
(** ** JavaScript values and coercions *)
(* ===================================================================== *)

Module JS.

Inductive JsVal : Type :=
| VUndef                    (* undefined: the field is absent *)
| VNull                     (* null *)
| VBool (b : bool)
| VNum (repr : string)      (* a number x, given as String(x): "0", "6", "2.55" *)
| VStr (s : string).

Inductive JsNum : Type :=
| NaN
| Num (z : Z).

(** a number read by [parseFloat] from a decimal text: the double nearest
    to the decimal, carried by the decimal read.  No arithmetic is done on
    these numbers, and equal decimals give equal doubles. *)
Record JsFloat : Type := parseFloat_of { decimal : Qc }.

Coercion parseFloat_of : Qc >-> JsFloat.

#[global] Instance JsVal_eq_dec : EqDecision JsVal.
Proof. solve_decision. Defined.

#[global] Instance JsNum_eq_dec : EqDecision JsNum.
Proof. solve_decision. Defined.

(** [String(v)] / [v.toString()] *)
Definition ToString (v : JsVal) : string :=
  match v with
  | VUndef => "undefined"
  | VNull => "null"
  | VBool true => "true"
  | VBool false => "false"
  | VNum r => r
  | VStr s => s
  end.

(** ToBoolean: [undefined], [null], [false], the number 0 and the empty
    string are falsy. *)
Definition truthy (v : JsVal) : bool :=
  match v with
  | VUndef | VNull => false
  | VBool b => b
  | VNum r => negb (String.eqb r "0" || String.eqb r "NaN")
  | VStr s => negb (String.eqb s "")
  end.

(** [a || b] on values *)
Definition js_or (a b : JsVal) : JsVal := if truthy a then a else b.

(** destructuring default [{ x = d }]: only [undefined] takes the default *)
Definition or_default (d v : JsVal) : JsVal :=
  match v with VUndef => d | _ => v end.

(** *** Lexical helpers *)

Definition code (a : ascii) : Z := Z.of_nat (nat_of_ascii a).

(** the white space of ECMAScript (WhiteSpace and LineTerminator), which
    [parseInt], [parseFloat] and [Number] strip, in UTF-8.  One byte: TAB,
    LF, VT, FF, CR and the space. *)
Definition is_ws (a : ascii) : bool :=
  match nat_of_ascii a with
  | 9%nat | 10%nat | 11%nat | 12%nat | 13%nat | 32%nat => true
  | _ => false
  end.

(** two bytes: U+00A0 *)
Definition is_ws2 (a b : ascii) : bool := (code a =? 194) && (code b =? 160).

(** three bytes: U+1680, U+2000 to U+200A, U+2028, U+2029, U+202F, U+205F,
    U+3000 and U+FEFF *)
Definition is_ws3 (a b c : ascii) : bool :=
  let '(x, y, z) := (code a, code b, code c) in
  ((x =? 225) && (y =? 154) && (z =? 128))
  || ((x =? 226) && (y =? 128)
      && (((128 <=? z) && (z <=? 138)) || (z =? 168) || (z =? 169) || (z =? 175)))
  || ((x =? 226) && (y =? 129) && (z =? 159))
  || ((x =? 227) && (y =? 128) && (z =? 128))
  || ((x =? 239) && (y =? 187) && (z =? 191)).

Fixpoint skip_ws (s : string) : string :=
  match s with
  | String a r =>
      if is_ws a then skip_ws r
      else
        match r with
        | String b r2 =>
            if is_ws2 a b then skip_ws r2
            else
              match r2 with
              | String c r3 => if is_ws3 a b c then skip_ws r3 else s
              | EmptyString => s
              end
        | EmptyString => s
        end
  | EmptyString => s
  end.

(** the same on a string whose bytes come last first *)
Fixpoint skip_ws_rev (s : string) : string :=
  match s with
  | String a r =>
      if is_ws a then skip_ws_rev r
      else
        match r with
        | String b r2 =>
            if is_ws2 b a then skip_ws_rev r2
            else
              match r2 with
              | String c r3 => if is_ws3 c b a then skip_ws_rev r3 else s
              | EmptyString => s
              end
        | EmptyString => s
        end
  | EmptyString => s
  end.

Fixpoint rev_string (acc s : string) : string :=
  match s with
  | String a r => rev_string (String a acc) r
  | EmptyString => acc
  end.

(** strip white space at both ends *)
Definition trim (s : string) : string :=
  rev_string "" (skip_ws_rev (rev_string "" (skip_ws s))).

(** value of a digit in radix up to 36 *)
Definition digit_val (a : ascii) : option Z :=
  let n := Z.of_nat (nat_of_ascii a) in
  if (48 <=? n) && (n <=? 57) then Some (n - 48)
  else if (97 <=? n) && (n <=? 122) then Some (n - 87)
  else if (65 <=? n) && (n <=? 90) then Some (n - 55)
  else None.

Definition is_digit (radix : Z) (a : ascii) : bool :=
  match digit_val a with
  | Some d => d <? radix
  | None => false
  end.

(** the longest prefix of digits, as a number; [acc] is [None] until a digit
    has been read *)
Fixpoint read_digits (radix : Z) (s : string) (acc : option Z) : option Z :=
  match s with
  | String a r =>
      match digit_val a with
      | Some d =>
          if d <? radix
          then read_digits radix r (Some (default 0 acc * radix + d))
          else acc
      | None => acc
      end
  | EmptyString => acc
  end.

(** drop the longest prefix of digits; the count of digits dropped *)
Fixpoint span_digits (radix : Z) (s : string) : nat * string :=
  match s with
  | String a r =>
      if is_digit radix a
      then let '(n, t) := span_digits radix r in (S n, t)
      else (O, s)
  | EmptyString => (O, s)
  end.

Definition strip_sign (s : string) : bool * string :=
  match s with
  | String "-" r => (true, r)
  | String "+" r => (false, r)
  | _ => (false, s)
  end.

(** *** Numbers

    A number computed by a handler is a double that is an integer, an
    infinity or NaN; [Num z] carries an integer double by its value and
    the infinities as plus and minus 2^1024, the first power of two beyond
    the doubles. *)
Definition Infinity : Z := 2 ^ 1024.

(** the double nearest to the integer [z], ties to the even mantissa; an
    integer that rounds beyond the largest double gives an infinity *)
Definition to_double (z : Z) : Z :=
  let a := Z.abs z in
  if a <? 2 ^ 53 then z
  else
    let e := Z.log2 a - 52 in
    let q := Z.shiftr a e in
    let rest := a - Z.shiftl q e in
    let half := 2 ^ (e - 1) in
    let q' := if (half <? rest) || ((half =? rest) && Z.odd q)
              then q + 1 else q in
    Z.sgn z * Z.min (Z.shiftl q' e) Infinity.

Definition is_infinite (z : Z) : bool := Infinity <=? Z.abs z.

(** *** parseInt(string), radix argument omitted; the digits read are
    rounded to a double *)
Definition parseInt_str (s : string) : JsNum :=
  let '(neg, s2) := strip_sign (skip_ws s) in
  let '(radix, s3) :=
    match s2 with
    | String "0" (String "x" r) => (16, r)
    | String "0" (String "X" r) => (16, r)
    | _ => (10, s2)
    end in
  match read_digits radix s3 None with
  | None => NaN
  | Some n => Num (to_double (if neg then - n else n))
  end.

(** [parseInt(v)]: the argument is converted to a string first *)
Definition parseInt (v : JsVal) : JsNum := parseInt_str (ToString v).

(** *** isNaN(parseFloat(v)) *)

(** some prefix of [s] (after leading white space) is a StrDecimalLiteral *)
Definition float_prefix (s : string) : bool :=
  let s2 := snd (strip_sign (skip_ws s)) in
  match s2 with
  | String a r =>
      if is_digit 10 a then true
      else if Ascii.eqb a "." then
        match r with
        | String b _ => is_digit 10 b
        | EmptyString => false
        end
      else String.prefix "Infinity" s2
  | EmptyString => false
  end.

Definition parseFloat_isNaN (v : JsVal) : bool := negb (float_prefix (ToString v)).

(** *** isNaN(v), that is Number(v) is NaN *)

(** an optional ExponentPart followed by the end of the string *)
Definition exponent_end (s : string) : bool :=
  match s with
  | EmptyString => true
  | String c r =>
      if Ascii.eqb c "e" || Ascii.eqb c "E" then
        let '(n, t) := span_digits 10 (snd (strip_sign r)) in
        negb (Nat.eqb n 0) && String.eqb t ""
      else false
  end.

(** StrUnsignedDecimalLiteral, the whole string *)
Definition unsigned_decimal (s : string) : bool :=
  if String.eqb s "Infinity" then true
  else
    let '(n, t) := span_digits 10 s in
    match t with
    | String "." r =>
        let '(m, u) := span_digits 10 r in
        negb (Nat.eqb (n + m) 0) && exponent_end u
    | _ => negb (Nat.eqb n 0) && exponent_end t
    end.

(** NonDecimalIntegerLiteral, the whole string *)
Definition non_decimal (s : string) : bool :=
  let all radix r :=
    let '(n, t) := span_digits radix r in
    negb (Nat.eqb n 0) && String.eqb t "" in
  match s with
  | String "0" (String c r) =>
      if Ascii.eqb c "x" || Ascii.eqb c "X" then all 16 r
      else if Ascii.eqb c "o" || Ascii.eqb c "O" then all 8 r
      else if Ascii.eqb c "b" || Ascii.eqb c "B" then all 2 r
      else false
  | _ => false
  end.

(** StringToNumber gives a number (the empty string gives 0) *)
Definition str_is_number (s : string) : bool :=
  let t := trim s in
  String.eqb t "" || non_decimal t || unsigned_decimal (snd (strip_sign t)).

Definition isNaN (v : JsVal) : bool :=
  match v with
  | VUndef => true
  | VNull => false
  | VBool _ => false
  | VNum r => String.eqb r "NaN"
  | VStr s => negb (str_is_number s)
  end.

(** *** Math.max, Math.min, arithmetic *)

Definition Math_max (a b : JsNum) : JsNum :=
  match a, b with
  | Num x, Num y => Num (Z.max x y)
  | _, _ => NaN
  end.

Definition Math_min (a b : JsNum) : JsNum :=
  match a, b with
  | Num x, Num y => Num (Z.min x y)
  | _, _ => NaN
  end.

(** [a - b]: the difference of two infinities of one sign is NaN *)
Definition js_sub (a b : JsNum) : JsNum :=
  match a, b with
  | Num x, Num y =>
      if is_infinite x then (if x =? y then NaN else Num x)
      else if is_infinite y then Num (- y)
      else Num (to_double (x - y))
  | _, _ => NaN
  end.

(** [a * b]: zero times an infinity is NaN *)
Definition js_mul (a b : JsNum) : JsNum :=
  match a, b with
  | Num x, Num y =>
      if ((x =? 0) && is_infinite y) || (is_infinite x && (y =? 0)) then NaN
      else Num (to_double (x * y))
  | _, _ => NaN
  end.

(** the least integer [k] with [a <= k * b], for [b > 0] *)
Definition ceil_div (a b : Z) : Z := - ((- a) / b).

(** [Math.ceil(a / b)] for a count [a] and a page size [b]; the handlers
    reach it with [b >= 1] or [b = NaN] only *)
Definition Math_ceil_div (a : Z) (b : JsNum) : JsNum :=
  match b with
  | Num y => Num (ceil_div a y)
  | NaN => NaN
  end.

End JS.

Import JS.

(* ===================================================================== *)
(** ** The table [sales_data] (DB/schema.js) *)
(* ===================================================================== *)

(** the columns, by the property name each has on the drizzle table object *)
Inductive Column : Type :=
| C_invoiceNo | C_stockCode | C_description | C_quantity
| C_invoiceDate | C_unitPrice | C_customerId | C_country.

#[global] Instance Column_eq_dec : EqDecision Column.
Proof. solve_decision. Defined.

Definition col_name (c : Column) : string :=
  match c with
  | C_invoiceNo => "invoiceNo"
  | C_stockCode => "stockCode"
  | C_description => "description"
  | C_quantity => "quantity"
  | C_invoiceDate => "invoiceDate"
  | C_unitPrice => "unitPrice"
  | C_customerId => "customerId"
  | C_country => "country"
  end.

Definition all_columns : list Column :=
  [C_invoiceNo; C_stockCode; C_description; C_quantity;
   C_invoiceDate; C_unitPrice; C_customerId; C_country].

Inductive SqlType : Type :=
| TVarchar (n : nat)
| TInteger
| TTimestamp         (* milliseconds, no time zone *)
| TNumeric.          (* numeric(10, 2), as a count of hundredths *)

Definition col_type (c : Column) : SqlType :=
  match c with
  | C_invoiceNo => TVarchar 20
  | C_stockCode => TVarchar 20
  | C_description => TVarchar 255
  | C_quantity => TInteger
  | C_invoiceDate => TTimestamp
  | C_unitPrice => TNumeric
  | C_customerId => TInteger
  | C_country => TVarchar 100
  end.

Definition not_null (c : Column) : bool :=
  match c with
  | C_description | C_customerId => false
  | _ => true
  end.

(** one row of the table; the table declares no key and no uniqueness, so
    a table state is a list, possibly with repeated rows *)
Record Row : Type := mkRow {
  invoiceNo : string;
  stockCode : string;
  description : option string;
  quantity : Z;
  invoiceDate : Z;
  unitPrice : Z;
  customerId : option Z;
  country : string
}.

Definition Table : Type := list Row.

#[global] Instance Row_eq_dec : EqDecision Row.
Proof. solve_decision. Defined.

(** the columns of the table object [salesData], by property name *)
Definition salesData : gmap string Column :=
  list_to_map (map (fun c => (col_name c, c)) all_columns).

(** the other properties drizzle gives the table object, both functions:
    [enableRLS] is an own property, [getSQL] is inherited from the class of
    tables.  A version of the library that adds further function-valued
    properties gives them the behaviour of these. *)
Definition Table_methods : list string := ["enableRLS"; "getSQL"].

(** the properties every object inherits from [Object.prototype]; they are
    functions, or for [__proto__] the prototype object, hence truthy *)
Definition Object_prototype : list string :=
  ["constructor"; "__proto__"; "hasOwnProperty"; "isPrototypeOf";
   "propertyIsEnumerable"; "toLocaleString"; "toString"; "valueOf";
   "__defineGetter__"; "__defineSetter__"; "__lookupGetter__";
   "__lookupSetter__"].

(* ===================================================================== *)
(** ** Statements and their execution *)
(* ===================================================================== *)

Inductive Cell : Type :=
| CNull
| CText (s : string)
| CInt (z : Z)
| CTime (t : Z)
| CNumeric (h : Z).

Definition cell (c : Column) (r : Row) : Cell :=
  match c with
  | C_invoiceNo => CText (invoiceNo r)
  | C_stockCode => CText (stockCode r)
  | C_description => from_option CText CNull (description r)
  | C_quantity => CInt (quantity r)
  | C_invoiceDate => CTime (invoiceDate r)
  | C_unitPrice => CNumeric (unitPrice r)
  | C_customerId => from_option CInt CNull (customerId r)
  | C_country => CText (country r)
  end.

(** a JavaScript value handed to the query builder as a parameter *)
Inductive Param : Type :=
| PVal (v : JsVal)        (* a request value passed on as it came *)
| PNum (n : JsNum)        (* the result of parseInt *)
| PDate (d : option Z)    (* new Date(x); None is Invalid Date *)
| PFixed (h : option Z).  (* parseFloat(x).toFixed(2), see [toFixed2] *)

Inductive Op : Type := OpEq | OpGte | OpLte.

(** [eq(col, p)], [gte(col, p)], [lte(col, p)] *)
Inductive Cond : Type :=
| sql_cmp (op : Op) (c : Column) (p : Param).

Definition sql_eq : Column -> Param -> Cond := sql_cmp OpEq.
Definition sql_gte : Column -> Param -> Cond := sql_cmp OpGte.
Definition sql_lte : Column -> Param -> Cond := sql_cmp OpLte.

(** [and(...conditions)] *)
Inductive Where : Type :=
| sql_and (cs : list Cond).

(** what [orderBy] is given: a column, or another property of the table
    object, by its name *)
Inductive SortField : Type :=
| FCol (c : Column)
| FProp (name : string).

Inductive Order : Type :=
| sql_asc (f : SortField)
| sql_desc (f : SortField).

(** the timestamps the engine takes from the driver: a [Date] is sent as
    its ISO text, which the engine reads for the years 1 to 9999 *)
Definition in_timestamp (t : Z) : bool :=
  (- 62135596800000 <=? t) && (t <=? 253402300799999).

Definition in_int4 (z : Z) : bool := (- 2147483648 <=? z) && (z <=? 2147483647).
Definition in_int8 (z : Z) : bool :=
  (- 9223372036854775808 <=? z) && (z <=? 9223372036854775807).

(** a parameter compared with a column: the value the engine reads it as,
    [None] when the statement fails on it.  The handlers compare text
    columns with request values, customerId with a [parseInt] result and
    invoiceDate with a [Date]. *)
Definition bind_cmp (c : Column) (p : Param) : option Cell :=
  match col_type c, p with
  | TVarchar _, PVal (VUndef | VNull) => Some CNull
  | TVarchar _, PVal v => Some (CText (ToString v))
  | TInteger, PNum (Num z) => if in_int4 z then Some (CInt z) else None
  | TTimestamp, PDate (Some t) => if in_timestamp t then Some (CTime t) else None
  | _, _ => None
  end.

(** SQL comparison; [None] when an operand is NULL.  Text is compared byte
    by byte. *)
Definition cell_compare (a b : Cell) : option comparison :=
  match a, b with
  | CText x, CText y => Some (String.compare x y)
  | CInt x, CInt y => Some (x ?= y)
  | CTime x, CTime y => Some (x ?= y)
  | CNumeric x, CNumeric y => Some (x ?= y)
  | _, _ => None
  end.

Definition test (op : Op) (a b : Cell) : bool :=
  match cell_compare a b, op with
  | Some Eq, _ => true
  | Some Gt, OpGte => true
  | Some Lt, OpLte => true
  | _, _ => false
  end.

(** a condition with its parameter bound *)
Definition BCond : Type := Op * Column * Cell.

Definition bind_cond (k : Cond) : option BCond :=
  match k with
  | sql_cmp op c p => v ← bind_cmp c p; Some (op, c, v)
  end.

Definition holds (r : Row) (b : BCond) : bool :=
  let '(op, c, v) := b in test op (cell c r) v.

(** [.where(w)]; [undefined] restricts nothing *)
Definition bind_where (w : option Where) : option (list BCond) :=
  match w with
  | None => Some []
  | Some (sql_and cs) => mapM bind_cond cs
  end.

Definition matches (bs : list BCond) (r : Row) : bool := forallb (holds r) bs.

(** the rows a bound predicate selects, in table order *)
Definition selected (bs : list BCond) (t : Table) : list Row :=
  filter (fun r => matches bs r = true) t.

(** *** Ordering, LIMIT and OFFSET *)

(** ascending order of two cells, NULL after every value *)
Definition cell_leb (a b : Cell) : bool :=
  match a, b with
  | _, CNull => true
  | CNull, _ => false
  | _, _ => match cell_compare a b with Some Gt => false | _ => true end
  end.

(** a property of the table object that holds a function goes into the
    statement as a text parameter, a constant sort key: every two rows
    compare equal *)
Definition row_leb (o : Order) (x y : Row) : bool :=
  match o with
  | sql_asc (FCol c) => cell_leb (cell c x) (cell c y)
  | sql_desc (FCol c) => cell_leb (cell c y) (cell c x)
  | sql_asc (FProp _) | sql_desc (FProp _) => true
  end.

Fixpoint insert_by (le : Row -> Row -> bool) (x : Row) (l : list Row) : list Row :=
  match l with
  | [] => [x]
  | y :: l' => if le x y then x :: l else y :: insert_by le x l'
  end.

(** rows with equal keys keep their table order *)
Definition sort_by (le : Row -> Row -> bool) (l : list Row) : list Row :=
  foldr (insert_by le) [] l.

Definition order_field (o : Order) : SortField :=
  match o with sql_asc f | sql_desc f => f end.

(** the query builder can write the sort field into the statement; it
    throws on the prototype object, the value of [__proto__] *)
Definition writable (f : SortField) : bool :=
  match f with
  | FCol _ => true
  | FProp name => negb (String.eqb name "__proto__")
  end.

(** [.orderBy(o)]; [None] when the statement cannot be built *)
Definition sql_order (o : option Order) (rs : list Row) : option (list Row) :=
  match o with
  | None => Some rs
  | Some o => if writable (order_field o) then Some (sort_by (row_leb o) rs) else None
  end.

(** [.limit(n)]: the builder writes a LIMIT clause for a number [n >= 0]
    only, which [NaN] is not *)
Definition sql_limit (l : option JsNum) (rs : list Row) : option (list Row) :=
  match l with
  | Some (Num n) =>
      if 0 <=? n
      then if in_int8 n then Some (take (Z.to_nat n) rs) else None
      else Some rs
  | Some NaN | None => Some rs
  end.

(** [.offset(n)]: the builder writes an OFFSET clause for a truthy [n]
    only, which neither 0 nor [NaN] is.  The driver sends the shortest
    decimal that reads back as the double [n], which is [n] below 2^53. *)
Definition sql_offset (o : option JsNum) (rs : list Row) : option (list Row) :=
  match o with
  | Some (Num n) =>
      if n =? 0 then Some rs
      else if (0 <? n) && in_int8 n then Some (drop (Z.to_nat n) rs) else None
  | Some NaN | None => Some rs
  end.

(** *** Aggregates of the summary *)

Definition Zsum (l : list Z) : Z := foldr Z.add 0 l.

(** [quantity * unit_price] of a row; the price is kept in hundredths *)
Definition amount (r : Row) : Qc := (Qc_of_Z (quantity r * unitPrice r) / Qc_of_Z 100)%Qc.

Definition Qcsum (l : list Qc) : Qc := foldr Qcplus (Qc_of_Z 0) l.

(** [quantity * unit_price] of a row in hundredths *)
Definition amount_cents (r : Row) : Z := quantity r * unitPrice r.

(** the weight and the first digit of an integer [i >= 1] written in base
    10000, the digits of the engine's numeric type *)
Fixpoint nbase_top (fuel : nat) (i : Z) : Z * Z :=
  match fuel with
  | O => (0, i)
  | S f =>
      if i <? 10000 then (0, i)
      else let '(w, d) := nbase_top f (i / 10000) in (w + 1, d)
  end.

(** the same for the numeric of [h] hundredths; zero has weight 0 and
    digit 0 *)
Definition numeric_top (h : Z) : Z * Z :=
  let a := Z.abs h in
  if a =? 0 then (0, 0)
  else if a <? 100 then (- 1, a * 100)
  else nbase_top (Z.to_nat (Z.log2 a)) (a / 100).

(** the number of decimals the engine gives the quotient of [h] hundredths
    by the integer [n]: enough for 16 significant digits by the weights
    and first digits of the operands, and at least the two of the
    dividend *)
Definition div_scale (h n : Z) : Z :=
  let '(w1, d1) := numeric_top h in
  let '(w2, d2) := numeric_top (n * 100) in
  let qweight := w1 - w2 - (if d1 <=? d2 then 1 else 0) in
  Z.min 1000 (Z.max (16 - qweight * 4) 2).

(** AVG over [n >= 1] rows of a numeric column whose values sum to [h]
    hundredths: the quotient, rounded half away from zero at that scale *)
Definition numeric_avg (h n : Z) : Qc :=
  let scale := 10 ^ div_scale h n in
  let q := (2 * Z.abs h * scale + 100 * n) / (200 * n) in
  (Qc_of_Z (Z.sgn h * q) / Qc_of_Z scale)%Qc.

(** SUM and AVG over no row are NULL, COUNT is 0 *)
Record SummaryRow : Type := mkSummaryRow {
  sum_sales : option Qc;         (* SUM(quantity * unit_price) *)
  sum_quantity : option Z;       (* SUM(quantity) *)
  count_rows : Z;                (* COUNT( * ) *)
  avg_sales : option Qc          (* AVG(quantity * unit_price) *)
}.

Definition aggregate (rs : list Row) : SummaryRow :=
  let total := Qcsum (map amount rs) in
  let n := Z.of_nat (length rs) in
  match rs with
  | [] => mkSummaryRow None None 0 None
  | _ :: _ =>
      mkSummaryRow (Some total) (Some (Zsum (map quantity rs))) n
                   (Some (numeric_avg (Zsum (map amount_cents rs)) n))
  end.

(** *** Values written by INSERT and UPDATE *)

Fixpoint all_spaces (s : string) : bool :=
  match s with
  | String a r => Ascii.eqb a " " && all_spaces r
  | EmptyString => true
  end.

(** a byte that continues a character of a UTF-8 string *)
Definition is_continuation (a : ascii) : bool :=
  (128 <=? code a) && (code a <? 192).

(** the first [n] characters of a UTF-8 string, and what follows them *)
Fixpoint split_chars (n : nat) (s : string) : string * string :=
  match s with
  | String a r =>
      if is_continuation a then
        let '(p, q) := split_chars n r in (String a p, q)
      else
        match n with
        | O => (EmptyString, s)
        | S n' => let '(p, q) := split_chars n' r in (String a p, q)
        end
  | EmptyString => (EmptyString, EmptyString)
  end.

(** storing into [varchar(n)], which counts characters: a longer string is
    refused unless only spaces are cut off *)
Definition varchar (n : nat) (s : string) : option string :=
  let '(p, q) := split_chars n s in
  if all_spaces q then Some p else None.

(** the cell a parameter is stored as in column [c]; [None] when the
    statement fails on it.  The handlers give text columns request values,
    integer columns [parseInt] results, the timestamp a [Date], the price
    a [toFixed] text, and [null] anywhere. *)
Definition assign (c : Column) (p : Param) : option Cell :=
  match p, col_type c with
  | PVal (VUndef | VNull), _ => Some CNull
  | PVal v, TVarchar n => CText <$> varchar n (ToString v)
  | PNum (Num z), TInteger => if in_int4 z then Some (CInt z) else None
  | PDate (Some t), TTimestamp => if in_timestamp t then Some (CTime t) else None
  | PFixed (Some h), TNumeric => Some (CNumeric h)
  | _, _ => None
  end.

Definition get_text (x : Cell) : option string :=
  match x with CText s => Some s | _ => None end.
Definition get_int (x : Cell) : option Z :=
  match x with CInt z => Some z | _ => None end.
Definition get_time (x : Cell) : option Z :=
  match x with CTime z => Some z | _ => None end.
Definition get_numeric (x : Cell) : option Z :=
  match x with CNumeric z => Some z | _ => None end.
Definition nullable {A} (get : Cell -> option A) (x : Cell) : option (option A) :=
  match x with CNull => Some None | _ => Some <$> get x end.

(** the row made of the given cells; [None] when a NOT NULL column is
    given NULL *)
Definition row_of_cells (f : Column -> option Cell) : option Row :=
  a ← f C_invoiceNo ≫= get_text;
  b ← f C_stockCode ≫= get_text;
  d ← f C_description ≫= nullable get_text;
  q ← f C_quantity ≫= get_int;
  t ← f C_invoiceDate ≫= get_time;
  u ← f C_unitPrice ≫= get_numeric;
  k ← f C_customerId ≫= nullable get_int;
  n ← f C_country ≫= get_text;
  Some (mkRow a b d q t u k n).

(** the values of an object keyed by column property names; a column
    without a key takes [dflt] *)
Definition assigned (vals : gmap string Param) (dflt : Column -> Cell)
    (c : Column) : option Cell :=
  match vals !! col_name c with
  | Some p => assign c p
  | None => Some (dflt c)
  end.

(** every value of the object can be sent for its column *)
Definition assignable (vals : gmap string Param) : bool :=
  forallb (fun c => bool_decide (is_Some (assigned vals (fun _ => CNull) c)))
          all_columns.

(** *** Statements *)

Inductive Stmt : Type :=
| Select (w : option Where) (o : option Order) (limit offset : option JsNum)
| SelectCount (w : option Where)
| SelectSummary (w : option Where)
| Insert (values : gmap string Param)
| Update (set : gmap string Param) (w : Where)
| Delete (w : Where).

Inductive Result : Type :=
| Rows (rs : list Row)
| Counted (n : Z)
| Aggregated (s : SummaryRow).

(** the rows of [t] rewritten by [f] where [hit] holds; [None] as soon as
    one rewrite fails *)
Fixpoint rewrite_rows (hit : Row -> bool) (f : Row -> option Row) (t : Table)
    : option (Table * list Row) :=
  match t with
  | [] => Some ([], [])
  | r :: t' =>
      if hit r then
        r' ← f r;
        '(t'', out) ← rewrite_rows hit f t';
        Some (r' :: t'', r' :: out)
      else
        '(t'', out) ← rewrite_rows hit f t';
        Some (r :: t'', out)
  end.

(** one statement against table [t]: the table afterwards and the rows
    returned, or [None] when the engine (or the driver) raises *)
Definition exec (t : Table) (s : Stmt) : option (Table * Result) :=
  match s with
  | Select w o l off =>
      bs ← bind_where w;
      sorted ← sql_order o (selected bs t);
      rs ← sql_offset off sorted;
      rs' ← sql_limit l rs;
      Some (t, Rows rs')
  | SelectCount w =>
      bs ← bind_where w;
      Some (t, Counted (Z.of_nat (length (selected bs t))))
  | SelectSummary w =>
      bs ← bind_where w;
      Some (t, Aggregated (aggregate (selected bs t)))
  | Insert vals =>
      r ← row_of_cells (assigned vals (fun _ => CNull));
      Some ((t ++ [r])%list, Rows [r])
  | Update set w =>
      bs ← bind_where (Some w);
      if assignable set then
        '(t', out) ← rewrite_rows (matches bs)
                       (fun r => row_of_cells (assigned set (fun c => cell c r))) t;
        Some (t', Rows out)
      else None
  | Delete w =>
      bs ← bind_where (Some w);
      Some (filter (fun r => matches bs r = false) t, Rows (selected bs t))
  end.

(* ===================================================================== *)
(** ** The handlers (routes/sales.routes.js) *)
(* ===================================================================== *)

(** the JSON body of a response *)
Inductive Reply : Type :=
| Failure (message : string)
| Listing (data : list Row) (page limit : JsNum) (total : Z) (totalPages : JsNum)
| Single (message : option string) (data : Row)
| Totals (totalSales : JsFloat) (totalQuantity totalOrders : Z)
         (averageOrderValue : JsFloat).

(** what one request does: the response, the table afterwards, and the
    statements handed to the storage layer, in order *)
Record Outcome : Type := mkOutcome {
  status : Z;
  reply : Reply;
  table : Table;
  issued : list Stmt
}.

(** [req.body.k] *)
Definition field (body : gmap string JsVal) (k : string) : JsVal :=
  default VUndef (body !! k).

(** [req.query.k]: a query parameter is a string *)
Definition qfield (query : gmap string string) (k : string) : JsVal :=
  from_option VStr VUndef (query !! k).

(** [x !== undefined] *)
Definition defined (v : JsVal) : bool :=
  match v with VUndef => false | _ => true end.

(** [conditions.length > 0 ? and(...conditions) : undefined] *)
Definition where_of (conditions : list Cond) : option Where :=
  if (0 <? length conditions)%nat then Some (sql_and conditions) else None.

(** [salesData[key]]: own properties first, then the prototype chain *)
Definition salesData_get (key : string) : option SortField :=
  match salesData !! key with
  | Some c => Some (FCol c)
  | None =>
      if bool_decide (key ∈ (Table_methods ++ Object_prototype)%list)
      then Some (FProp key) else None
  end.

(** [and(eq(salesData.invoiceNo, invoiceNo), eq(salesData.stockCode, stockCode))] *)
Definition key_where (invoiceNo stockCode : string) : Where :=
  sql_and [sql_eq C_invoiceNo (PVal (VStr invoiceNo));
           sql_eq C_stockCode (PVal (VStr stockCode))].

(** [parseFloat(x || 0)] and [parseInt(x || 0)] of an aggregate: [x] is
    null or the text of a number, a non-empty string *)
Definition parseFloat_or_0 (x : option Qc) : JsFloat := parseFloat_of (default 0%Qc x).
Definition parseInt_or_0 (x : option Z) : Z := default 0 x.
(** [parseInt(n || 0)] of a count, a number *)
Definition count_or_0 (n : Z) : Z := if n =? 0 then 0 else n.

Section Handlers.

(** [new Date(v)] in milliseconds, [None] for Invalid Date *)
Variable Date_new : JsVal -> option Z.

(** [parseFloat(s).toFixed(2)] as the count of hundredths that
    [numeric(10, 2)] stores for it, [None] where the column refuses the text
    (Infinity, more than eight integer digits) *)
Variable toFixed2 : string -> option Z.

(** *** GET / *)

Definition list_pageNum (query : gmap string string) : JsNum :=
  let page := or_default (VNum "1") (qfield query "page") in
  Math_max (Num 1) (parseInt page).

Definition list_limitNum (query : gmap string string) : JsNum :=
  let limit := or_default (VNum "50") (qfield query "limit") in
  Math_min (Num 1000) (Math_max (Num 1) (parseInt limit)).

Definition list_offset (query : gmap string string) : JsNum :=
  js_mul (js_sub (list_pageNum query) (Num 1)) (list_limitNum query).

Definition list_conditions (query : gmap string string) : list Cond :=
  let country := qfield query "country" in
  let customerId := qfield query "customerId" in
  let startDate := qfield query "startDate" in
  let endDate := qfield query "endDate" in
  ((if truthy country then [sql_eq C_country (PVal country)] else []) ++
   (if truthy customerId
    then [sql_eq C_customerId (PNum (parseInt customerId))] else []) ++
   (if truthy startDate
    then [sql_gte C_invoiceDate (PDate (Date_new startDate))] else []) ++
   (if truthy endDate
    then [sql_lte C_invoiceDate (PDate (Date_new endDate))] else []))%list.

(** [salesData[sortBy] || salesData.invoiceDate] *)
Definition list_sortField (query : gmap string string) : SortField :=
  let sortBy := or_default (VStr "invoiceDate") (qfield query "sortBy") in
  default (FCol C_invoiceDate) (salesData_get (ToString sortBy)).

Definition list_orderBy (query : gmap string string) : Order :=
  let sortOrder := or_default (VStr "desc") (qfield query "sortOrder") in
  if bool_decide (sortOrder = VStr "asc")
  then sql_asc (list_sortField query)
  else sql_desc (list_sortField query).

Definition list_select (query : gmap string string) : Stmt :=
  Select (where_of (list_conditions query)) (Some (list_orderBy query))
         (Some (list_limitNum query)) (Some (list_offset query)).

Definition list_count (query : gmap string string) : Stmt :=
  SelectCount (where_of (list_conditions query)).

(** the two statements of [Promise.all] read the same table state *)
Definition router_get_root (t : Table) (query : gmap string string) : Outcome :=
  let limitNum := list_limitNum query in
  let calls := [list_select query; list_count query] in
  match exec t (list_select query), exec t (list_count query) with
  | Some (_, Rows records), Some (_, Counted total) =>
      mkOutcome 200
        (Listing records (list_pageNum query) limitNum total
                 (Math_ceil_div total limitNum))
        t calls
  | _, _ => mkOutcome 500 (Failure "Failed to fetch sales records") t calls
  end.

(** *** GET /:invoiceNo/:stockCode *)

Definition router_get_one (t : Table) (invoiceNo stockCode : string) : Outcome :=
  let q := Select (Some (key_where invoiceNo stockCode)) None (Some (Num 1)) None in
  match exec t q with
  | Some (_, Rows []) => mkOutcome 404 (Failure "Sales record not found") t [q]
  | Some (_, Rows (r :: _)) => mkOutcome 200 (Single None r) t [q]
  | _ => mkOutcome 500 (Failure "Failed to fetch sales record") t [q]
  end.

(** *** POST / *)

Definition post_newRecord (body : gmap string JsVal) : gmap string Param :=
  let customerId := field body "customerId" in
  list_to_map
    [("invoiceNo", PVal (VStr (ToString (field body "invoiceNo"))));
     ("stockCode", PVal (VStr (ToString (field body "stockCode"))));
     ("description", PVal (js_or (field body "description") VNull));
     ("quantity", PNum (parseInt (field body "quantity")));
     ("invoiceDate", PDate (Date_new (field body "invoiceDate")));
     ("unitPrice", PFixed (toFixed2 (ToString (field body "unitPrice"))));
     ("customerId", if truthy customerId then PNum (parseInt customerId)
                    else PVal VNull);
     ("country", PVal (VStr (ToString (field body "country"))))].

(** the first check: a required field is falsy *)
Definition post_missing (body : gmap string JsVal) : bool :=
  negb (truthy (field body "invoiceNo")) || negb (truthy (field body "stockCode"))
  || negb (truthy (field body "quantity")) || negb (truthy (field body "invoiceDate"))
  || negb (truthy (field body "unitPrice")) || negb (truthy (field body "country")).

(** the second check *)
Definition post_not_numeric (body : gmap string JsVal) : bool :=
  isNaN (field body "quantity") || parseFloat_isNaN (field body "unitPrice").

(** the table has no unique constraint, so the engine never reports code
    23505 and every failure of the insert is answered 500 *)
Definition router_post (t : Table) (body : gmap string JsVal) : Outcome :=
  if post_missing body then
    mkOutcome 400
      (Failure "Missing required fields: invoiceNo, stockCode, quantity, invoiceDate, unitPrice, country")
      t []
  else if post_not_numeric body then
    mkOutcome 400
      (Failure "Quantity must be an integer and unitPrice must be a number") t []
  else
    let q := Insert (post_newRecord body) in
    match exec t q with
    | Some (t', Rows (r :: _)) =>
        mkOutcome 201 (Single (Some "Sales record created successfully") r) t' [q]
    | _ => mkOutcome 500 (Failure "Failed to create sales record") t [q]
    end.

(** *** PUT /:invoiceNo/:stockCode *)

(** the update object, or the message of the early 400 *)
Definition put_updateData (body : gmap string JsVal) : string + gmap string Param :=
  let description := field body "description" in
  let quantity := field body "quantity" in
  let invoiceDate := field body "invoiceDate" in
  let unitPrice := field body "unitPrice" in
  let customerId := field body "customerId" in
  let country := field body "country" in
  let u0 : gmap string Param := ∅ in
  let u1 := if defined description
            then <["description" := PVal description]> u0 else u0 in
  if defined quantity && isNaN quantity then inl "Quantity must be a number"
  else
  let u2 := if defined quantity
            then <["quantity" := PNum (parseInt quantity)]> u1 else u1 in
  let u3 := if defined invoiceDate
            then <["invoiceDate" := PDate (Date_new invoiceDate)]> u2 else u2 in
  if defined unitPrice && parseFloat_isNaN unitPrice
  then inl "Unit price must be a number"
  else
  let u4 := if defined unitPrice
            then <["unitPrice" := PFixed (toFixed2 (ToString unitPrice))]> u3
            else u3 in
  let u5 := if defined customerId
            then <["customerId" := if truthy customerId
                                   then PNum (parseInt customerId)
                                   else PVal VNull]> u4
            else u4 in
  let u6 := if defined country then <["country" := PVal country]> u5 else u5 in
  inr u6.

Definition router_put (t : Table) (invoiceNo stockCode : string)
    (body : gmap string JsVal) : Outcome :=
  match put_updateData body with
  | inl message => mkOutcome 400 (Failure message) t []
  | inr updateData =>
      if bool_decide (size updateData = 0%nat) then
        mkOutcome 400 (Failure "No fields provided for update") t []
      else
        let q := Update updateData (key_where invoiceNo stockCode) in
        match exec t q with
        | Some (t', Rows []) =>
            mkOutcome 404 (Failure "Sales record not found") t' [q]
        | Some (t', Rows (r :: _)) =>
            mkOutcome 200 (Single (Some "Sales record updated successfully") r) t' [q]
        | _ => mkOutcome 500 (Failure "Failed to update sales record") t [q]
        end
  end.

(** *** DELETE /:invoiceNo/:stockCode *)

Definition router_delete (t : Table) (invoiceNo stockCode : string) : Outcome :=
  let q := Delete (key_where invoiceNo stockCode) in
  match exec t q with
  | Some (t', Rows []) => mkOutcome 404 (Failure "Sales record not found") t' [q]
  | Some (t', Rows (r :: _)) =>
      mkOutcome 200 (Single (Some "Sales record deleted successfully") r) t' [q]
  | _ => mkOutcome 500 (Failure "Failed to delete sales record") t [q]
  end.

(** *** GET /analytics/summary *)

Definition summary_conditions (query : gmap string string) : list Cond :=
  let startDate := qfield query "startDate" in
  let endDate := qfield query "endDate" in
  let country := qfield query "country" in
  ((if truthy startDate
    then [sql_gte C_invoiceDate (PDate (Date_new startDate))] else []) ++
   (if truthy endDate
    then [sql_lte C_invoiceDate (PDate (Date_new endDate))] else []) ++
   (if truthy country then [sql_eq C_country (PVal country)] else []))%list.

Definition router_get_analytics_summary (t : Table) (query : gmap string string)
    : Outcome :=
  let q := SelectSummary (where_of (summary_conditions query)) in
  match exec t q with
  | Some (_, Aggregated summary) =>
      mkOutcome 200
        (Totals (parseFloat_or_0 (sum_sales summary))
                (parseInt_or_0 (sum_quantity summary))
                (count_or_0 (count_rows summary))
                (parseFloat_or_0 (avg_sales summary)))
        t [q]
  | _ => mkOutcome 500 (Failure "Failed to fetch sales analytics") t [q]
  end.

(** *** GET /analytics/top-products: the page size *)

Definition top_products_limitNum (query : gmap string string) : JsNum :=
  let limit := or_default (VNum "10") (qfield query "limit") in
  Math_min (Num 100) (Math_max (Num 1) (parseInt limit)).

End Handlers.

(* ===================================================================== *)
(** ** Vocabulary of the properties *)
(* ===================================================================== *)

(** exact match on the composite key (invoiceNo, stockCode) *)
Definition keyed (i s : string) (r : Row) : Prop :=
  invoiceNo r = i ∧ stockCode r = s.

#[global] Instance keyed_dec i s r : Decision (keyed i s r).
Proof. unfold keyed. apply _. Defined.

(** the key comparisons, bound *)
Definition key_bound (i s : string) : list BCond :=
  [(OpEq, C_invoiceNo, CText i); (OpEq, C_stockCode, CText s)].

(** a query parameter that is present and non-empty *)
Definition supplied (query : gmap string string) (k : string) : option string :=
  match query !! k with
  | Some s => if String.eqb s "" then None else Some s
  | None => None
  end.

(** the comparisons the filter is made of, one for each parameter that is
    present and non-empty: country equality, customerId equality after
    integer coercion, invoiceDate >= startDate, invoiceDate <= endDate *)
Definition filter_comparisons (Date_new : JsVal → option Z)
    (query : gmap string string) : list Cond :=
  (from_option (fun s => [sql_eq C_country (PVal (VStr s))]) []
     (supplied query "country") ++
   from_option (fun s => [sql_eq C_customerId (PNum (parseInt (VStr s)))]) []
     (supplied query "customerId") ++
   from_option (fun s => [sql_gte C_invoiceDate (PDate (Date_new (VStr s)))]) []
     (supplied query "startDate") ++
   from_option (fun s => [sql_lte C_invoiceDate (PDate (Date_new (VStr s)))]) []
     (supplied query "endDate"))%list.

(** a row satisfies every comparison of the parameters supplied *)
Definition row_passes (Date_new : JsVal → option Z)
    (query : gmap string string) (r : Row) : Prop :=
  (∀ s, supplied query "country" = Some s → country r = s)
  ∧ (∀ s, supplied query "customerId" = Some s →
       ∃ n, parseInt (VStr s) = Num n ∧ customerId r = Some n)
  ∧ (∀ s, supplied query "startDate" = Some s →
       ∃ d, Date_new (VStr s) = Some d ∧ d ≤ invoiceDate r)
  ∧ (∀ s, supplied query "endDate" = Some s →
       ∃ d, Date_new (VStr s) = Some d ∧ invoiceDate r ≤ d).

(** the sort fields the route documents: [enum: [invoiceDate, unitPrice,
    quantity]] *)
Definition sortable_fields : list string := ["invoiceDate"; "unitPrice"; "quantity"].


(** the body fields the update handler reads *)
Definition updatable_fields : list string :=
  ["description"; "quantity"; "invoiceDate"; "unitPrice"; "customerId"; "country"].

(** the fields the create handler requires *)
Definition required_fields : list string :=
  ["invoiceNo"; "stockCode"; "quantity"; "invoiceDate"; "unitPrice"; "country"].

(** a body field that is present and not empty *)
Definition present_nonempty (v : JsVal) : Prop :=
  v ≠ VUndef ∧ v ≠ VNull ∧ v ≠ VStr "".

(** an offset the engine's 64-bit OFFSET can take *)
Definition offset_fits (n : JsNum) : Prop :=
  match n with
  | Num z => in_int8 z = true
  | NaN => True
  end.

(** *** Sample data *)

Definition sample_Date (v : JsVal) : option Z :=
  match v with
  | VStr "2010-12-01T08:26:00Z" => Some 1291191960000
  | VStr "2010-12-01" => Some 1291161600000
  | VStr "2011-01-01" => Some 1293840000000
  | _ => None
  end.

Definition sample_toFixed2 (s : string) : option Z :=
  match s with
  | "2.55" => Some 255
  | "3" => Some 300
  | _ => None
  end.

Definition query_france_2011 : gmap string string :=
  <["country" := "France"]> (<["startDate" := "2011-01-01"]> ∅).

Definition query_page_2 : gmap string string :=
  <["page" := "2"]> (<["limit" := "2"]> ∅).

(** a create body with every required field and customerId 0 *)
Definition body_customer_0 : gmap string JsVal :=
  list_to_map
    [("invoiceNo", VStr "536365"); ("stockCode", VStr "85123A");
     ("quantity", VNum "6"); ("invoiceDate", VStr "2010-12-01T08:26:00Z");
     ("unitPrice", VNum "2.55"); ("customerId", VNum "0");
     ("country", VStr "United Kingdom")].

(** the same body with quantity 0 and no customerId *)
Definition body_quantity_0 : gmap string JsVal :=
  list_to_map
    [("invoiceNo", VStr "536365"); ("stockCode", VStr "85123A");
     ("quantity", VNum "0"); ("invoiceDate", VStr "2010-12-01T08:26:00Z");
     ("unitPrice", VNum "2.55"); ("country", VStr "United Kingdom")].

(** an update body that sets the quantity only *)
Definition body_quantity_7 : gmap string JsVal := {[ "quantity" := VNum "7" ]}.

(** an update body that only carries customerId 0 *)
Definition body_customer_only : gmap string JsVal := {[ "customerId" := VNum "0" ]}.

Definition row_a : Row :=
  mkRow "536365" "85123A" (Some "WHITE HANGING HEART T-LIGHT HOLDER") 6
        1291191960000 255 (Some 17850) "United Kingdom".
Definition row_b : Row :=
  mkRow "536370" "22728" None 24 1293840000000 300 None "France".
(** a second row with the key of [row_a] *)
Definition row_dup : Row :=
  mkRow "536365" "85123A" (Some "DUPLICATE") 1 1293840000001 100 (Some 12583) "France".

Definition sample_table : Table := [row_a; row_b; row_dup].

(* ===================================================================== *)
(** ** GET /analytics/top-products *)
(* ===================================================================== *)

(** one row of the grouped select; inside a group the sums and the
    average are never NULL *)
Record GroupRow : Type := mkGroupRow {
  g_stockCode : string;
  g_description : option string;
  g_totalQuantity : Z;           (* SUM(quantity) *)
  g_totalRevenue : Qc;           (* SUM(quantity * unit_price) *)
  g_averagePrice : Qc            (* AVG(unit_price) *)
}.

(** one item of the response *)
Record ProductRow : Type := mkProductRow {
  p_stockCode : string;
  p_description : option string;
  p_totalQuantity : Z;           (* parseInt(item.totalQuantity) *)
  p_totalRevenue : JsFloat;      (* parseFloat(item.totalRevenue) *)
  p_averagePrice : JsFloat       (* parseFloat(item.averagePrice) *)
}.

(** [groupBy(salesData.stockCode, salesData.description)]; NULL descriptions
    form one group *)
Definition product_key (r : Row) : string * option string :=
  (stockCode r, description r).

(** the rows of the group of key [k] *)
Definition group_rows (k : string * option string) (rs : list Row) : list Row :=
  filter (fun r => product_key r = k) rs.

Definition product_of (rs : list Row) (k : string * option string) : GroupRow :=
  let g := group_rows k rs in
  mkGroupRow (fst k) (snd k) (Zsum (map quantity g)) (Qcsum (map amount g))
             (numeric_avg (Zsum (map unitPrice g)) (Z.of_nat (length g))).

(** one row for each group *)
Definition sql_group (rs : list Row) : list GroupRow :=
  map (product_of rs) (remove_dups (map product_key rs)).

Fixpoint insert_sorted {A} (le : A -> A -> bool) (x : A) (l : list A) : list A :=
  match l with
  | [] => [x]
  | y :: l' => if le x y then x :: l else y :: insert_sorted le x l'
  end.

(** a stable sort; groups with equal sums keep their order *)
Definition isort {A} (le : A -> A -> bool) (l : list A) : list A :=
  foldr (insert_sorted le) [] l.

(** [orderBy(desc(sum(salesData.quantity)))] *)
Definition more_sold (x y : GroupRow) : bool :=
  g_totalQuantity y <=? g_totalQuantity x.

(** [.limit(n)] on any rows, as [sql_limit] *)
Definition sql_limit_of {A} (l : JsNum) (rs : list A) : option (list A) :=
  match l with
  | Num n =>
      if 0 <=? n
      then if in_int8 n then Some (take (Z.to_nat n) rs) else None
      else Some rs
  | NaN => Some rs
  end.

(** the grouped select of the top-products route against table [t] *)
Definition exec_top_products (t : Table) (w : option Where) (limit : JsNum)
    : option (list GroupRow) :=
  bs ← bind_where w;
  sql_limit_of limit (isort more_sold (sql_group (selected bs t))).

Inductive TopReply : Type :=
| TopFailure (message : string)
| TopProducts (data : list ProductRow).

Record TopOutcome : Type := mkTopOutcome {
  top_status : Z;
  top_reply : TopReply;
  top_table : Table
}.

(** [item => ({ stockCode: item.stockCode, ..., totalQuantity:
    parseInt(item.totalQuantity), ... })] *)
Definition product_item (item : GroupRow) : ProductRow :=
  mkProductRow (g_stockCode item) (g_description item) (g_totalQuantity item)
               (parseFloat_of (g_totalRevenue item))
               (parseFloat_of (g_averagePrice item)).

Definition top_products_conditions (Date_new : JsVal → option Z)
    (query : gmap string string) : list Cond :=
  let startDate := qfield query "startDate" in
  let endDate := qfield query "endDate" in
  ((if truthy startDate
    then [sql_gte C_invoiceDate (PDate (Date_new startDate))] else []) ++
   (if truthy endDate
    then [sql_lte C_invoiceDate (PDate (Date_new endDate))] else []))%list.

Definition router_get_analytics_top_products (Date_new : JsVal → option Z)
    (t : Table) (query : gmap string string) : TopOutcome :=
  match exec_top_products t (where_of (top_products_conditions Date_new query))
          (top_products_limitNum query) with
  | Some result => mkTopOutcome 200 (TopProducts (map product_item result)) t
  | None => mkTopOutcome 500 (TopFailure "Failed to fetch top products") t
  end.

(** *** Further sample data *)

(** a create body whose invoiceDate is no date *)
Definition body_bad_date : gmap string JsVal :=
  list_to_map
    [("invoiceNo", VStr "536365"); ("stockCode", VStr "85123A");
     ("quantity", VNum "6"); ("invoiceDate", VStr "yesterday");
     ("unitPrice", VNum "2.55"); ("country", VStr "United Kingdom")].
(** an update body with quantity null *)
Definition body_quantity_null : gmap string JsVal := {[ "quantity" := VNull ]}.
(** a date range before every sample row *)
Definition query_before_2010 : gmap string string := {[ "endDate" := "2010-12-01" ]}.
(** a listing query with an unparseable customerId *)
Definition query_customer_abc : gmap string string := {[ "customerId" := "abc" ]}.

(* ===================================================================== *)
(** ** Numbers *)
(* ===================================================================== *)

(** an integer below 2^53 in absolute value is a double *)
Lemma to_double_exact (z : Z) : Z.abs z < 2 ^ 53 → to_double z = z.
Proof.
  intros H. unfold to_double.
  destruct (Z.ltb_spec (Z.abs z) (2 ^ 53)) as [_|Hge]; [reflexivity|lia].
Qed.

Lemma Infinity_large : 2 ^ 53 < Infinity.
Proof. reflexivity. Qed.

Lemma to_double_nonneg (z : Z) : 0 ≤ z → 0 ≤ to_double z.
Proof.
  intros Hz. unfold to_double.
  destruct (Z.abs z <? 2 ^ 53); [exact Hz|]. cbv zeta.
  set (e := Z.log2 (Z.abs z) - 52). set (q := Z.shiftr (Z.abs z) e).
  assert (Hq : 0 ≤ q) by (apply Z.shiftr_nonneg; lia).
  apply Z.mul_nonneg_nonneg; [lia|].
  apply Z.min_glb; [|pose proof Infinity_large; lia].
  apply Z.shiftl_nonneg. destruct (_ || _); lia.
Qed.

Lemma is_infinite_small (z : Z) : Z.abs z < 2 ^ 53 → is_infinite z = false.
Proof.
  intros H. unfold is_infinite. apply Z.leb_gt. pose proof Infinity_large. lia.
Qed.

(** [x - 1] for a page number [x >= 1] *)
Lemma js_sub_one (x : Z) :
  1 ≤ x →
  ∃ a, js_sub (Num x) (Num 1) = Num a ∧ 0 ≤ a ∧ (x - 1 < 2 ^ 53 → a = x - 1).
Proof.
  intros Hx. unfold js_sub.
  destruct (is_infinite x) eqn:Ei.
  - destruct (Z.eqb_spec x 1) as [->|_]; [discriminate Ei|].
    exists x. repeat split; [lia|]. intros Hs.
    unfold is_infinite in Ei. apply Z.leb_le in Ei.
    pose proof Infinity_large. lia.
  - rewrite (is_infinite_small 1) by reflexivity.
    exists (to_double (x - 1)). repeat split.
    + apply to_double_nonneg. lia.
    + intros Hs. apply to_double_exact. lia.
Qed.

(** [a * l] for a page size [l] *)
Lemma js_mul_limit (a l : Z) :
  0 ≤ a → 1 ≤ l ≤ 1000 →
  js_mul (Num a) (Num l) = Num (to_double (a * l)) ∧ 0 ≤ to_double (a * l).
Proof.
  intros Ha Hl. unfold js_mul.
  rewrite (is_infinite_small l) by lia.
  destruct (Z.eqb_spec l 0) as [->|_]; [lia|].
  rewrite andb_false_r, andb_false_r. split; [reflexivity|].
  apply to_double_nonneg. nia.
Qed.

(* ===================================================================== *)
(** ** Comparisons and key lookups *)
(* ===================================================================== *)

Lemma string_compare_refl (s : string) : String.compare s s = Eq.
Proof.
  pose proof (String.compare_antisym s s) as H.
  destruct (String.compare s s); simpl in H; congruence.
Qed.

Lemma string_compare_eq (a b : string) : String.compare a b = Eq ↔ a = b.
Proof.
  split.
  - apply String.compare_eq_iff.
  - intros ->. apply string_compare_refl.
Qed.

Lemma test_eq_text (a b : string) : test OpEq (CText a) (CText b) = true ↔ a = b.
Proof.
  unfold test. simpl. rewrite <- string_compare_eq.
  destruct (String.compare a b); split; congruence.
Qed.

Lemma bind_key_where (i s : string) :
  bind_where (Some (key_where i s)) = Some (key_bound i s).
Proof. reflexivity. Qed.

Lemma matches_key (i s : string) (r : Row) :
  matches (key_bound i s) r = true ↔ keyed i s r.
Proof.
  unfold matches, key_bound, keyed. simpl.
  rewrite andb_true_r, andb_true_iff, !test_eq_text. reflexivity.
Qed.

Lemma selected_key (i s : string) (t : Table) :
  selected (key_bound i s) t = filter (keyed i s) t.
Proof. apply list_filter_iff. intros r. apply matches_key. Qed.

Lemma unselected_key (i s : string) (t : Table) :
  filter (fun r => matches (key_bound i s) r = false) t
  = filter (fun r => ¬ keyed i s r) t.
Proof.
  apply list_filter_iff. intros r. rewrite <- matches_key.
  destruct (matches (key_bound i s) r); split; congruence.
Qed.

Lemma filter_none {A} (P : A → Prop) `{∀ x, Decision (P x)} (l : list A) :
  (∀ x, x ∈ l → ¬ P x) → filter P l = [].
Proof.
  induction l as [|a l IH]; intros Hn; [reflexivity|].
  rewrite filter_cons. destruct (decide (P a)) as [Ha|_].
  - exfalso. apply (Hn a); [left | exact Ha].
  - apply IH. intros x Hx. apply Hn. right. exact Hx.
Qed.

Lemma filter_all {A} (P : A → Prop) `{∀ x, Decision (P x)} (l : list A) :
  (∀ x, x ∈ l → P x) → filter P l = l.
Proof.
  induction l as [|a l IH]; intros Hn; [reflexivity|].
  rewrite filter_cons. destruct (decide (P a)) as [_|Ha].
  - f_equal. apply IH. intros x Hx. apply Hn. right. exact Hx.
  - exfalso. apply Ha, Hn. left.
Qed.

Lemma exec_select_one (t : Table) (i s : string) :
  exec t (Select (Some (key_where i s)) None (Some (Num 1)) None)
  = Some (t, Rows (take 1 (filter (keyed i s) t))).
Proof.
  unfold exec. rewrite bind_key_where. cbn [mbind option_bind].
  rewrite selected_key. reflexivity.
Qed.

Lemma exec_delete (t : Table) (i s : string) :
  exec t (Delete (key_where i s))
  = Some (filter (fun r => ¬ keyed i s r) t, Rows (filter (keyed i s) t)).
Proof.
  unfold exec. rewrite bind_key_where. cbn [mbind option_bind].
  rewrite selected_key, unselected_key. reflexivity.
Qed.

Lemma router_delete_eq (t : Table) (i s : string) :
  router_delete t i s =
  match filter (keyed i s) t with
  | [] => mkOutcome 404 (Failure "Sales record not found")
            (filter (fun r => ¬ keyed i s r) t) [Delete (key_where i s)]
  | r :: _ => mkOutcome 200 (Single (Some "Sales record deleted successfully") r)
                (filter (fun r => ¬ keyed i s r) t) [Delete (key_where i s)]
  end.
Proof.
  unfold router_delete. rewrite exec_delete.
  destruct (filter (keyed i s) t); reflexivity.
Qed.

Lemma router_get_one_eq (t : Table) (i s : string) :
  router_get_one t i s =
  let q := Select (Some (key_where i s)) None (Some (Num 1)) None in
  match filter (keyed i s) t with
  | [] => mkOutcome 404 (Failure "Sales record not found") t [q]
  | r :: _ => mkOutcome 200 (Single None r) t [q]
  end.
Proof.
  unfold router_get_one. rewrite exec_select_one.
  destruct (filter (keyed i s) t); reflexivity.
Qed.

(* ===================================================================== *)
(** ** Get-one and Delete *)
(* ===================================================================== *)

(** C9 — Get-one: the select is capped at one row, so whatever the table
    holds (several rows may share the pair (invoiceNo, stockCode)) the
    statement returns at most one row, and the response is either not-found
    or carries exactly one record, the first row with the key. *)
Theorem get_one_at_most_one_record (t : Table) (i s : string) :
  ∃ out : list Row,
    exec t (Select (Some (key_where i s)) None (Some (Num 1)) None)
      = Some (t, Rows out)
    ∧ out = take 1 (filter (keyed i s) t)
    ∧ (length out ≤ 1)%nat
    ∧ Forall (keyed i s) out
    ∧ router_get_one t i s =
        match out with
        | [] => mkOutcome 404 (Failure "Sales record not found") t
                  [Select (Some (key_where i s)) None (Some (Num 1)) None]
        | r :: _ => mkOutcome 200 (Single None r) t
                  [Select (Some (key_where i s)) None (Some (Num 1)) None]
        end.
Proof.
  exists (take 1 (filter (keyed i s) t)).
  split; [apply exec_select_one|].
  split; [reflexivity|].
  split; [rewrite length_take; lia|].
  split.
  - apply Forall_take, Forall_forall. intros r Hr.
    apply list_elem_of_filter in Hr. tauto.
  - rewrite router_get_one_eq. simpl.
    destruct (filter (keyed i s) t); reflexivity.
Qed.

(** two rows of the sample table share a key; the lookup answers with one *)
Example get_one_with_duplicate_key :
  length (filter (keyed "536365" "85123A") sample_table) = 2%nat
  ∧ reply (router_get_one sample_table "536365" "85123A") = Single None row_a.
Proof. split; reflexivity. Qed.

(** C7 — Delete: the statement removes exactly the rows whose pair
    (invoiceNo, stockCode) equals the key; with no such row the answer is
    not-found and the table is as before; otherwise the answer is success
    with a deleted record; a second delete of the same key is not-found. *)
Theorem delete_by_composite_key (t : Table) (i s : string) :
  issued (router_delete t i s) = [Delete (key_where i s)]
  ∧ table (router_delete t i s) = filter (fun r => ¬ keyed i s r) t
  ∧ (filter (keyed i s) t = [] →
       status (router_delete t i s) = 404
       ∧ reply (router_delete t i s) = Failure "Sales record not found"
       ∧ table (router_delete t i s) = t)
  ∧ (∀ r rest, filter (keyed i s) t = r :: rest →
       status (router_delete t i s) = 200
       ∧ reply (router_delete t i s)
           = Single (Some "Sales record deleted successfully") r
       ∧ r ∈ t ∧ keyed i s r ∧ r ∉ table (router_delete t i s))
  ∧ status (router_delete (table (router_delete t i s)) i s) = 404
  ∧ reply (router_delete (table (router_delete t i s)) i s)
      = Failure "Sales record not found"
  ∧ table (router_delete (table (router_delete t i s)) i s)
      = table (router_delete t i s).
Proof.
  assert (Htab : table (router_delete t i s) = filter (fun r => ¬ keyed i s r) t).
  { rewrite router_delete_eq. destruct (filter (keyed i s) t); reflexivity. }
  assert (Hgone : filter (keyed i s) (filter (fun r => ¬ keyed i s r) t) = []).
  { apply filter_none. intros x Hx. apply list_elem_of_filter in Hx. tauto. }
  split; [rewrite router_delete_eq; destruct (filter (keyed i s) t); reflexivity|].
  split; [exact Htab|].
  split.
  { intros Hnil. rewrite router_delete_eq, Hnil. simpl.
    repeat split. apply filter_all. intros x Hx Hk.
    assert (Hin : x ∈ filter (keyed i s) t) by (apply list_elem_of_filter; tauto).
    rewrite Hnil in Hin. inversion Hin. }
  split.
  { intros r rest Hcons.
    assert (Hin : r ∈ filter (keyed i s) t) by (rewrite Hcons; left).
    apply list_elem_of_filter in Hin. destruct Hin as [Hk Hin].
    rewrite router_delete_eq, Hcons. simpl.
    repeat split; try assumption; try apply Hk.
    intros Hx. apply list_elem_of_filter in Hx. tauto. }
  rewrite Htab, router_delete_eq, Hgone. simpl.
  repeat split. apply filter_all. intros x Hx.
  apply list_elem_of_filter in Hx. tauto.
Qed.

Lemma delete_by_composite_key_witness :
  status (router_delete sample_table "536365" "85123A") = 200
  ∧ reply (router_delete sample_table "536365" "85123A")
      = Single (Some "Sales record deleted successfully") row_a
  ∧ status (router_delete (table (router_delete sample_table "536365" "85123A"))
                          "536365" "85123A") = 404.
Proof.
  destruct (delete_by_composite_key sample_table "536365" "85123A")
    as (_ & _ & _ & Hhit & Hagain & _).
  destruct (Hhit row_a [row_dup] eq_refl) as (Hs & Hr & _).
  exact (conj Hs (conj Hr Hagain)).
Defined.

(* ===================================================================== *)
(** ** Summary *)
(* ===================================================================== *)

Lemma bind_where_of (cs : list Cond) :
  bind_where (where_of cs) = mapM bind_cond cs.
Proof. destruct cs; reflexivity. Qed.

(** C8 — Summary over an empty match: whenever the filter binds and selects
    no row, the handler answers 200 with totalSales, totalQuantity,
    totalOrders and averageOrderValue all 0 (the NULL sums and average are
    coerced to zero). *)
Theorem summary_of_no_rows_is_zero (Date_new : JsVal → option Z)
    (t : Table) (query : gmap string string) (bs : list BCond) :
  bind_where (where_of (summary_conditions Date_new query)) = Some bs →
  selected bs t = [] →
  router_get_analytics_summary Date_new t query
  = mkOutcome 200 (Totals 0%Qc 0 0 0%Qc) t
      [SelectSummary (where_of (summary_conditions Date_new query))].
Proof.
  intros Hb Hsel. unfold router_get_analytics_summary, exec.
  rewrite Hb. cbn [mbind option_bind]. rewrite Hsel. reflexivity.
Qed.

Lemma summary_of_no_rows_is_zero_witness :
  router_get_analytics_summary sample_Date sample_table {[ "country" := "Spain" ]}
  = mkOutcome 200 (Totals 0%Qc 0 0 0%Qc) sample_table
      [SelectSummary (Some (sql_and [sql_eq C_country (PVal (VStr "Spain"))]))].
Proof.
  exact (summary_of_no_rows_is_zero sample_Date sample_table
           {[ "country" := "Spain" ]} [(OpEq, C_country, CText "Spain")]
           eq_refl eq_refl).
Defined.

(* ===================================================================== *)
(** ** Listing: the filter *)
(* ===================================================================== *)

Lemma supplied_Some (query : gmap string string) (k s : string) :
  supplied query k = Some s → qfield query k = VStr s ∧ truthy (VStr s) = true.
Proof.
  unfold supplied, qfield. destruct (query !! k) as [x|]; [|discriminate].
  simpl. destruct (String.eqb x "") eqn:E; [discriminate|].
  intros [= ->]. simpl. rewrite E. split; reflexivity.
Qed.

Lemma supplied_None (query : gmap string string) (k : string) :
  supplied query k = None → truthy (qfield query k) = false.
Proof.
  unfold supplied, qfield. destruct (query !! k) as [x|]; [|reflexivity].
  simpl. destruct (String.eqb x ""); [reflexivity|discriminate].
Qed.

Lemma holds_country (s : string) (r : Row) :
  holds r (OpEq, C_country, CText s) = true ↔ country r = s.
Proof. apply test_eq_text. Qed.

Lemma holds_customerId (z : Z) (r : Row) :
  holds r (OpEq, C_customerId, CInt z) = true ↔ customerId r = Some z.
Proof.
  unfold holds, test. simpl. destruct (customerId r) as [n|]; simpl.
  - destruct (Z.compare_spec n z) as [Hc|Hc|Hc]; split; intros Hx;
      try congruence; try (injection Hx; lia).
  - split; discriminate.
Qed.

Lemma holds_gte (d : Z) (r : Row) :
  holds r (OpGte, C_invoiceDate, CTime d) = true ↔ d ≤ invoiceDate r.
Proof.
  unfold holds, test. simpl.
  destruct (Z.compare_spec (invoiceDate r) d) as [Hc|Hc|Hc]; split; intros Hx;
    try lia; congruence.
Qed.

Lemma holds_lte (d : Z) (r : Row) :
  holds r (OpLte, C_invoiceDate, CTime d) = true ↔ invoiceDate r ≤ d.
Proof.
  unfold holds, test. simpl.
  destruct (Z.compare_spec (invoiceDate r) d) as [Hc|Hc|Hc]; split; intros Hx;
    try lia; congruence.
Qed.

Lemma list_conditions_eq (Date_new : JsVal → option Z) (query : gmap string string) :
  list_conditions Date_new query = filter_comparisons Date_new query.
Proof.
  unfold list_conditions, filter_comparisons.
  repeat match goal with
  | |- context [supplied query ?k] =>
      let E := fresh "E" in
      destruct (supplied query k) as [?|] eqn:E;
      [ destruct (supplied_Some _ _ _ E) as [-> ->]
      | rewrite (supplied_None _ _ E) ]
  end; reflexivity.
Qed.

Lemma matches_cons (b : BCond) (bs : list BCond) (r : Row) :
  matches (b :: bs) r = true ↔ holds r b = true ∧ matches bs r = true.
Proof. unfold matches. simpl. apply andb_true_iff. Qed.

Lemma matches_nil (r : Row) : matches [] r = true ↔ True.
Proof. split; reflexivity. Qed.

Lemma list_filter_semantics (Date_new : JsVal → option Z)
    (query : gmap string string) (bs : list BCond) (r : Row) :
  bind_where (where_of (list_conditions Date_new query)) = Some bs →
  matches bs r = true ↔ row_passes Date_new query r.
Proof.
  intros Hb. rewrite bind_where_of, list_conditions_eq in Hb.
  unfold filter_comparisons, row_passes in *.
  destruct (supplied query "country") as [c|];
  destruct (supplied query "customerId") as [k|];
  destruct (supplied query "startDate") as [a|];
  destruct (supplied query "endDate") as [b|];
  cbn in Hb;
  repeat match type of Hb with
  | context [parseInt ?v] => destruct (parseInt v) as [|?] eqn:?; cbn in Hb
  | context [in_int4 ?z] => destruct (in_int4 z) eqn:?; cbn in Hb
  | context [in_timestamp ?z] => destruct (in_timestamp z) eqn:?; cbn in Hb
  | context [Date_new ?v] => destruct (Date_new v) as [?|] eqn:?; cbn in Hb
  end;
  try discriminate Hb;
  injection Hb as <-;
  rewrite ?matches_cons, ?matches_nil, ?holds_country, ?holds_customerId,
          ?holds_gte, ?holds_lte;
  (split;
   [ intros Hall;
     repeat match goal with H : _ ∧ _ |- _ => destruct H end;
     repeat split; intros s0 Hs0; simplify_eq; eauto
   | intros (H1 & H2 & H3 & H4);
     repeat match goal with
     | H : ∀ s, Some ?x = Some s → _ |- _ => specialize (H x eq_refl)
     | H : ∃ _, _ |- _ => destruct H as (? & ? & ?)
     end;
     repeat match goal with
     | E1 : ?f = Some ?x, E2 : ?f = Some ?y |- _ =>
         rewrite E1 in E2; injection E2 as ->
     end;
     repeat split; try congruence; try lia; auto ]).
Qed.

(* ===================================================================== *)
(** ** Listing: page and count *)
(* ===================================================================== *)

Lemma insert_by_perm (le : Row → Row → bool) (x : Row) (l : list Row) :
  insert_by le x l ≡ₚ x :: l.
Proof.
  induction l as [|y l IH]; simpl; [reflexivity|].
  destruct (le x y); [reflexivity|].
  rewrite IH. apply Permutation_swap.
Qed.

Lemma sort_by_perm (le : Row → Row → bool) (l : list Row) : sort_by le l ≡ₚ l.
Proof.
  induction l as [|x l IH]; simpl; [reflexivity|].
  rewrite insert_by_perm. f_equiv. exact IH.
Qed.

Lemma sql_order_perm (o : option Order) (l l' : list Row) :
  sql_order o l = Some l' → l' ≡ₚ l.
Proof.
  unfold sql_order. destruct o as [o|]; [|intros [= <-]; reflexivity].
  destruct (writable (order_field o)); [|discriminate].
  intros [= <-]. apply sort_by_perm.
Qed.

Lemma sql_offset_sub (off : option JsNum) (l l' : list Row) :
  sql_offset off l = Some l' → l' ⊆+ l.
Proof.
  unfold sql_offset. intros H.
  repeat case_match; simplify_eq; try reflexivity.
  apply sublist_submseteq, sublist_drop.
Qed.

Lemma sql_limit_sub (lim : option JsNum) (l l' : list Row) :
  sql_limit lim l = Some l' → l' ⊆+ l.
Proof.
  unfold sql_limit. intros H.
  repeat case_match; simplify_eq; try reflexivity.
  apply sublist_submseteq, sublist_take.
Qed.

(** what a select returns is part of what its predicate selects *)
Lemma exec_select_sub (t t' : Table) w o lim off (bs : list BCond) (rs : list Row) :
  bind_where w = Some bs →
  exec t (Select w o lim off) = Some (t', Rows rs) →
  t' = t ∧ rs ⊆+ selected bs t.
Proof.
  intros Hb. unfold exec. rewrite Hb. cbn [mbind option_bind].
  destruct (sql_order o (selected bs t)) as [l0|] eqn:E0; [|discriminate].
  cbn [mbind option_bind].
  destruct (sql_offset off l0) as [l1|] eqn:E1; [|discriminate].
  cbn [mbind option_bind].
  destruct (sql_limit lim l1) as [l2|] eqn:E2; [|discriminate].
  cbn [mbind option_bind]. intros [= <- <-]. split; [reflexivity|].
  etransitivity; [eapply sql_limit_sub, E2|].
  etransitivity; [eapply sql_offset_sub, E1|].
  eapply Permutation_submseteq, sql_order_perm, E0.
Qed.

Lemma ceil_div_spec (a l : Z) :
  0 < l → l * (ceil_div a l - 1) < a ≤ l * ceil_div a l.
Proof.
  intros Hl. unfold ceil_div.
  pose proof (Z.mul_div_le (- a) l Hl).
  pose proof (Z.mul_succ_div_gt (- a) l Hl).
  lia.
Qed.

Lemma list_limitNum_range (query : gmap string string) (l : Z) :
  list_limitNum query = Num l → 1 ≤ l ≤ 1000.
Proof.
  unfold list_limitNum, Math_min, Math_max.
  destruct (parseInt _); [discriminate|]. intros [= <-]. lia.
Qed.

Lemma list_offset_nonneg (query : gmap string string) (z : Z) :
  list_offset query = Num z → 0 ≤ z.
Proof.
  unfold list_offset, list_pageNum, Math_max.
  destruct (parseInt _) as [|p]; [discriminate|].
  destruct (js_sub_one (Z.max 1 p)) as (a & -> & Ha & _); [lia|].
  destruct (list_limitNum query) as [|l] eqn:El; [discriminate|].
  apply list_limitNum_range in El.
  destruct (js_mul_limit a l Ha El) as [-> Hn]. intros [= <-]. exact Hn.
Qed.

Lemma order_field_list (query : gmap string string) :
  order_field (list_orderBy query) = list_sortField query.
Proof. unfold list_orderBy. destruct (bool_decide _); reflexivity. Qed.

(** the data query of the listing runs whenever its filter binds, its sort
    field can be written and its offset fits *)
Lemma exec_list_select (Date_new : JsVal → option Z) (t : Table)
    (query : gmap string string) (bs : list BCond) :
  bind_where (where_of (list_conditions Date_new query)) = Some bs →
  writable (list_sortField query) = true →
  offset_fits (list_offset query) →
  ∃ rs, exec t (list_select Date_new query) = Some (t, Rows rs).
Proof.
  intros Hb Hw Hfit. unfold list_select, exec. rewrite Hb. cbn [mbind option_bind].
  unfold sql_order. rewrite order_field_list, Hw. cbn [mbind option_bind].
  set (l0 := sort_by _ _).
  assert (∃ l1, sql_offset (Some (list_offset query)) l0 = Some l1) as [l1 ->].
  { unfold sql_offset, offset_fits in *.
    destruct (list_offset query) as [|z] eqn:Ez; [eauto|].
    apply list_offset_nonneg in Ez.
    destruct (z =? 0) eqn:E0; [eauto|]. rewrite Hfit.
    apply Z.eqb_neq in E0.
    replace (0 <? z) with true by (symmetry; apply Z.ltb_lt; lia). eauto. }
  cbn [mbind option_bind].
  assert (∃ l2, sql_limit (Some (list_limitNum query)) l1 = Some l2) as [l2 ->].
  { unfold sql_limit.
    destruct (list_limitNum query) as [|l] eqn:El; [eauto|].
    apply list_limitNum_range in El.
    replace (0 <=? l) with true by (symmetry; apply Z.leb_le; lia).
    replace (in_int8 l) with true; [eauto|].
    symmetry. unfold in_int8. apply andb_true_iff. split; apply Z.leb_le; lia. }
  eauto.
Qed.

Lemma exec_select_inv (t t' : Table) w o lim off (rs : list Row) :
  exec t (Select w o lim off) = Some (t', Rows rs) →
  ∃ bs, bind_where w = Some bs ∧ t' = t ∧ rs ⊆+ selected bs t.
Proof.
  intros H. destruct (bind_where w) as [bs|] eqn:Hb.
  - exists bs. split; [reflexivity|]. eapply exec_select_sub; eauto.
  - unfold exec in H. rewrite Hb in H. discriminate H.
Qed.

(** a listing in the reply comes from the two statements having run *)
Lemma router_get_root_inv (Date_new : JsVal → option Z) (t : Table)
    (query : gmap string string) (records : list Row) (page limit : JsNum)
    (total : Z) (totalPages : JsNum) :
  reply (router_get_root Date_new t query)
  = Listing records page limit total totalPages →
  ∃ bs, bind_where (where_of (list_conditions Date_new query)) = Some bs
    ∧ exec t (list_select Date_new query) = Some (t, Rows records)
    ∧ records ⊆+ selected bs t
    ∧ total = Z.of_nat (length (selected bs t))
    ∧ page = list_pageNum query ∧ limit = list_limitNum query
    ∧ totalPages = Math_ceil_div total (list_limitNum query)
    ∧ status (router_get_root Date_new t query) = 200.
Proof.
  unfold router_get_root.
  destruct (exec t (list_select Date_new query)) as [[t1 [rs|n|a]]|] eqn:Es;
    try discriminate.
  destruct (exec t (list_count Date_new query)) as [[t2 [rs2|n|a]]|] eqn:Ec;
    try discriminate.
  cbn [reply status]. intros [= <- <- <- <- <-].
  destruct (exec_select_inv _ _ _ _ _ _ _ Es) as (bs & Hb & -> & Hsub).
  exists bs. unfold list_count, exec in Ec. rewrite Hb in Ec.
  cbn [mbind option_bind] in Ec. injection Ec as _ <-.
  repeat split; try reflexivity; assumption.
Qed.

(** C4 — List filter: the WHERE of the two statements the listing issues is
    the conjunction of exactly the comparisons of the parameters among
    country, customerId, startDate, endDate that are present and non-empty
    (country equality, customerId equality after parseInt, invoiceDate >=
    startDate, invoiceDate <= endDate); a row is selected iff it satisfies
    all of them, so every record of a listing is a row of the table that
    satisfies them and the total counts the rows that do; with none supplied
    there is no WHERE clause and every row is selected and counted. *)
Theorem list_filter_is_conjunction (Date_new : JsVal → option Z) (t : Table)
    (query : gmap string string) :
  list_conditions Date_new query = filter_comparisons Date_new query
  ∧ list_select Date_new query
    = Select (where_of (filter_comparisons Date_new query))
             (Some (list_orderBy query)) (Some (list_limitNum query))
             (Some (list_offset query))
  ∧ list_count Date_new query
    = SelectCount (where_of (filter_comparisons Date_new query))
  ∧ issued (router_get_root Date_new t query)
    = [list_select Date_new query; list_count Date_new query]
  ∧ (∀ bs r,
       bind_where (where_of (list_conditions Date_new query)) = Some bs →
       matches bs r = true ↔ row_passes Date_new query r)
  ∧ (∀ records page limit total totalPages,
       reply (router_get_root Date_new t query)
       = Listing records page limit total totalPages →
       ∃ bs,
         bind_where (where_of (filter_comparisons Date_new query)) = Some bs
         ∧ (∀ r, matches bs r = true ↔ row_passes Date_new query r)
         ∧ records ⊆+ selected bs t
         ∧ total = Z.of_nat (length (selected bs t))
         ∧ ∀ r, r ∈ records → r ∈ t ∧ row_passes Date_new query r)
  ∧ (supplied query "country" = None → supplied query "customerId" = None →
     supplied query "startDate" = None → supplied query "endDate" = None →
       where_of (list_conditions Date_new query) = None
       ∧ bind_where (where_of (list_conditions Date_new query)) = Some []
       ∧ selected [] t = t
       ∧ ∀ records page limit total totalPages,
           reply (router_get_root Date_new t query)
           = Listing records page limit total totalPages →
           records ⊆+ t ∧ total = Z.of_nat (length t)).
Proof.
  assert (Hall : selected [] t = t) by (apply filter_all; reflexivity).
  split; [apply list_conditions_eq|].
  split; [unfold list_select; rewrite list_conditions_eq; reflexivity|].
  split; [unfold list_count; rewrite list_conditions_eq; reflexivity|].
  split.
  { unfold router_get_root.
    destruct (exec t (list_select Date_new query)) as [[t1 [rs|n|a]]|];
      try reflexivity.
    destruct (exec t (list_count Date_new query)) as [[t2 [rs2|n|a]]|];
      reflexivity. }
  split; [intros bs r; apply list_filter_semantics|].
  split.
  { intros records page limit total totalPages Hr.
    destruct (router_get_root_inv _ _ _ _ _ _ _ _ Hr)
      as (bs & Hb & _ & Hsub & Htot & _).
    exists bs. split; [rewrite <- list_conditions_eq; exact Hb|].
    split; [intros r; apply list_filter_semantics, Hb|].
    split; [exact Hsub|]. split; [exact Htot|].
    intros r Hin. eapply elem_of_submseteq in Hin; [|exact Hsub].
    apply list_elem_of_filter in Hin. destruct Hin as [Hm Hin].
    split; [exact Hin|]. apply (list_filter_semantics _ _ _ _ Hb), Hm. }
  intros E1 E2 E3 E4.
  assert (Hnone : list_conditions Date_new query = []).
  { rewrite list_conditions_eq. unfold filter_comparisons.
    rewrite E1, E2, E3, E4. reflexivity. }
  rewrite Hnone. split; [reflexivity|]. split; [reflexivity|].
  split; [exact Hall|].
  intros records page limit total totalPages Hr.
  destruct (router_get_root_inv _ _ _ _ _ _ _ _ Hr)
    as (bs & Hb & _ & Hsub & Htot & _).
  rewrite Hnone in Hb. injection Hb as <-. rewrite Hall in Hsub, Htot.
  split; assumption.
Qed.

Lemma list_filter_is_conjunction_witness :
  reply (router_get_root sample_Date sample_table query_france_2011)
  = Listing [row_dup; row_b] (Num 1) (Num 50) 2 (Num 1)
  ∧ row_passes sample_Date query_france_2011 row_b
  ∧ where_of (list_conditions sample_Date ∅) = None
  ∧ ∃ records,
      reply (router_get_root sample_Date sample_table ∅)
      = Listing records (Num 1) (Num 50) 3 (Num 1)
      ∧ records ⊆+ sample_table.
Proof.
  assert (Hr : reply (router_get_root sample_Date sample_table query_france_2011)
               = Listing [row_dup; row_b] (Num 1) (Num 50) 2 (Num 1)) by reflexivity.
  assert (Hr0 : reply (router_get_root sample_Date sample_table ∅)
                = Listing [row_dup; row_b; row_a] (Num 1) (Num 50) 3 (Num 1))
    by reflexivity.
  split; [exact Hr|]. split; [|split].
  - destruct (list_filter_is_conjunction sample_Date sample_table query_france_2011)
      as (_ & _ & _ & _ & _ & Hrec & _).
    destruct (Hrec _ _ _ _ _ Hr) as (bs & _ & _ & _ & _ & Hin).
    apply (Hin row_b). right. left.
  - destruct (list_filter_is_conjunction sample_Date sample_table ∅)
      as (_ & _ & _ & _ & _ & _ & Hnone).
    apply (Hnone eq_refl eq_refl eq_refl eq_refl).
  - destruct (list_filter_is_conjunction sample_Date sample_table ∅)
      as (_ & _ & _ & _ & _ & _ & Hnone).
    destruct (Hnone eq_refl eq_refl eq_refl eq_refl) as (_ & _ & _ & Hany).
    eexists. split; [exact Hr0|]. apply (Hany _ _ _ _ _ Hr0).
Defined.

(** C5 — List: the count statement carries the same WHERE as the data
    statement and no order, limit or offset; the handler answers 200
    whenever the filter binds, the sort field can be written and the engine
    takes the offset; and in every listing it answers, for every table, the
    reported total is the number of rows the predicate selects, the rows of
    the page are among those rows, so they are no more than the total, and
    totalPages is ceil(total / limit), the least k with
    total <= k * limit. *)
Theorem list_count_agrees_with_data (Date_new : JsVal → option Z) (t : Table)
    (query : gmap string string) :
  list_select Date_new query
  = Select (where_of (list_conditions Date_new query))
           (Some (list_orderBy query)) (Some (list_limitNum query))
           (Some (list_offset query))
  ∧ list_count Date_new query
    = SelectCount (where_of (list_conditions Date_new query))
  ∧ (∀ bs, bind_where (where_of (list_conditions Date_new query)) = Some bs →
       writable (list_sortField query) = true →
       offset_fits (list_offset query) →
       ∃ records,
         router_get_root Date_new t query
         = mkOutcome 200
             (Listing records (list_pageNum query) (list_limitNum query)
                (Z.of_nat (length (selected bs t)))
                (Math_ceil_div (Z.of_nat (length (selected bs t)))
                               (list_limitNum query)))
             t [list_select Date_new query; list_count Date_new query])
  ∧ (∀ records page limit total totalPages,
       reply (router_get_root Date_new t query)
       = Listing records page limit total totalPages →
       ∃ bs,
         bind_where (where_of (list_conditions Date_new query)) = Some bs
         ∧ total = Z.of_nat (length (selected bs t))
         ∧ records ⊆+ selected bs t
         ∧ Z.of_nat (length records) ≤ total
         ∧ page = list_pageNum query ∧ limit = list_limitNum query
         ∧ match limit with
           | Num l => ∃ k, totalPages = Num k ∧ l * (k - 1) < total ≤ l * k
           | NaN => totalPages = NaN
           end).
Proof.
  split; [reflexivity|]. split; [reflexivity|]. split.
  { intros bs Hb Hw Hfit.
    destruct (exec_list_select Date_new t query bs Hb Hw Hfit) as [rs Hrs].
    exists rs. unfold router_get_root. rewrite Hrs.
    unfold list_count, exec. rewrite Hb. reflexivity. }
  intros records page limit total totalPages Hr.
  destruct (router_get_root_inv _ _ _ _ _ _ _ _ Hr)
    as (bs & Hb & _ & Hsub & Htot & Hp & Hl & Htp & _).
  exists bs. split; [exact Hb|]. split; [exact Htot|]. split; [exact Hsub|].
  split; [subst total; apply inj_le, submseteq_length, Hsub|].
  split; [exact Hp|]. split; [exact Hl|].
  subst limit totalPages.
  destruct (list_limitNum query) as [|l] eqn:El; [reflexivity|].
  apply list_limitNum_range in El. eexists. split; [reflexivity|].
  apply ceil_div_spec. lia.
Qed.

Lemma list_count_agrees_with_data_witness :
  ∃ (records : list Row),
    router_get_root sample_Date sample_table query_page_2
    = mkOutcome 200
        (Listing records (Num 2) (Num 2) 3 (Num 2))
        sample_table
        [list_select sample_Date query_page_2; list_count sample_Date query_page_2]
    ∧ Z.of_nat (length records) ≤ 3.
Proof.
  destruct (list_count_agrees_with_data sample_Date sample_table query_page_2)
    as (_ & _ & Hrun & Hany).
  destruct (Hrun [] eq_refl eq_refl eq_refl) as (records & Hr).
  exists records. split; [exact Hr|].
  assert (Hrep : reply (router_get_root sample_Date sample_table query_page_2)
                 = Listing records (Num 2) (Num 2) 3 (Num 2))
    by (rewrite Hr; reflexivity).
  destruct (Hany _ _ _ _ _ Hrep) as (bs & _ & _ & _ & Hle & _). exact Hle.
Defined.

(* ===================================================================== *)
(** ** Create and Update: what is written *)
(* ===================================================================== *)

(** a row built from cells has exactly those cells *)
Lemma row_of_cells_cell (f : Column → option Cell) (r : Row) :
  row_of_cells f = Some r → ∀ c, f c = Some (cell c r).
Proof.
  unfold row_of_cells. intros H.
  destruct (f C_invoiceNo) as [[]|] eqn:?; try discriminate H.
  destruct (f C_stockCode) as [[]|] eqn:?; try discriminate H.
  destruct (f C_description) as [[]|] eqn:?; try discriminate H.
  all: destruct (f C_quantity) as [[]|] eqn:?; try discriminate H.
  all: destruct (f C_invoiceDate) as [[]|] eqn:?; try discriminate H.
  all: destruct (f C_unitPrice) as [[]|] eqn:?; try discriminate H.
  all: destruct (f C_customerId) as [[]|] eqn:?; try discriminate H.
  all: destruct (f C_country) as [[]|] eqn:?; try discriminate H.
  all: injection H as <-; intros []; simpl; assumption.
Qed.

Lemma rewrite_rows_out (hit : Row → bool) (f : Row → option Row)
    (t t' : Table) (out : list Row) :
  rewrite_rows hit f t = Some (t', out) →
  Forall (fun r' => ∃ r, r ∈ t ∧ hit r = true ∧ f r = Some r') out.
Proof.
  revert t' out. induction t as [|r t IH]; intros t' out; simpl.
  - intros [= <- <-]. constructor.
  - destruct (hit r) eqn:Eh.
    + destruct (f r) as [r'|] eqn:Ef; [|discriminate]. cbn [mbind option_bind].
      destruct (rewrite_rows hit f t) as [[t'' out']|]; [|discriminate].
      cbn [mbind option_bind]. intros [= <- <-]. constructor.
      * exists r. repeat split; [left | assumption | assumption].
      * eapply Forall_impl; [apply (IH _ _ eq_refl)|].
        intros x (r0 & Hin & Hr0). exists r0. split; [right; exact Hin|exact Hr0].
    + destruct (rewrite_rows hit f t) as [[t'' out']|]; [|discriminate].
      cbn [mbind option_bind]. intros [= <- <-].
      eapply Forall_impl; [apply (IH _ _ eq_refl)|].
      intros x (r0 & Hin & Hr0). exists r0. split; [right; exact Hin|exact Hr0].
Qed.

(** an update that returns no row changed no row *)
Lemma rewrite_rows_none (hit : Row → bool) (f : Row → option Row)
    (t t' : Table) :
  rewrite_rows hit f t = Some (t', []) → t' = t.
Proof.
  revert t'. induction t as [|r t IH]; intros t'; simpl.
  - intros [= <-]. reflexivity.
  - destruct (hit r).
    + destruct (f r) as [r'|]; [|discriminate]. cbn [mbind option_bind].
      destruct (rewrite_rows hit f t) as [[t'' out']|]; discriminate.
    + destruct (rewrite_rows hit f t) as [[t'' out']|]; [|discriminate].
      cbn [mbind option_bind]. intros [= <- ->]. f_equal. apply IH. reflexivity.
Qed.

Lemma exec_update_inv (t t' : Table) (u : gmap string Param) (i s : string)
    (out : list Row) :
  exec t (Update u (key_where i s)) = Some (t', Rows out) →
  rewrite_rows (matches (key_bound i s))
    (fun r => row_of_cells (assigned u (fun c => cell c r))) t = Some (t', out).
Proof.
  unfold exec. rewrite bind_key_where. cbn [mbind option_bind].
  destruct (assignable u); [|discriminate].
  destruct (rewrite_rows _ _ t) as [[t'' out']|]; [|discriminate].
  cbn [mbind option_bind]. intros [= <- <-]. reflexivity.
Qed.

Lemma updatable_fields_spec (k : string) :
  k ∈ updatable_fields ↔
  k = "description" ∨ k = "quantity" ∨ k = "invoiceDate" ∨ k = "unitPrice"
  ∨ k = "customerId" ∨ k = "country".
Proof.
  unfold updatable_fields. rewrite !elem_of_cons, elem_of_nil. tauto.
Qed.

(** the keys of the update object are the updatable fields the body
    defines *)
Lemma put_updateData_keys (Date_new : JsVal → option Z) (toFixed2 : string → option Z)
    (body : gmap string JsVal) (u : gmap string Param) (k : string) :
  put_updateData Date_new toFixed2 body = inr u →
  is_Some (u !! k) ↔ k ∈ updatable_fields ∧ defined (field body k) = true.
Proof.
  unfold put_updateData. intros H.
  destruct (defined (field body "description")) eqn:E1;
  destruct (defined (field body "quantity")) eqn:E2;
  destruct (defined (field body "invoiceDate")) eqn:E3;
  destruct (defined (field body "unitPrice")) eqn:E4;
  destruct (defined (field body "customerId")) eqn:E5;
  destruct (defined (field body "country")) eqn:E6;
  cbn [andb] in H;
  repeat match type of H with
  | context [if ?b then inl _ else _] => destruct b; [discriminate H|]
  end;
  injection H as <-;
  rewrite updatable_fields_spec;
  rewrite ?lookup_insert, ?lookup_empty;
  repeat case_decide; subst;
  rewrite ?lookup_empty, <- ?not_eq_None_Some;
  (split; [ intros Hs; try (exfalso; apply Hs; reflexivity);
            try (split; [tauto | assumption])
          | intros [Hk Hd]; try discriminate;
            try congruence; try (exfalso; intuition congruence) ]).
Qed.

(** row by row: a row that is hit is rewritten, any other is kept *)
Lemma rewrite_rows_rel (hit : Row → bool) (f : Row → option Row)
    (t t' : Table) (out : list Row) :
  rewrite_rows hit f t = Some (t', out) →
  Forall2 (fun r r' => if hit r then f r = Some r' else r' = r) t t'.
Proof.
  revert t' out. induction t as [|r t IH]; intros t' out; simpl.
  - intros [= <- <-]. constructor.
  - destruct (hit r) eqn:Eh.
    + destruct (f r) as [r'|] eqn:Ef; [|discriminate]. cbn [mbind option_bind].
      destruct (rewrite_rows hit f t) as [[t'' out']|]; [|discriminate].
      cbn [mbind option_bind]. intros [= <- <-]. constructor.
      * rewrite Eh. exact Ef.
      * apply (IH _ _ eq_refl).
    + destruct (rewrite_rows hit f t) as [[t'' out']|]; [|discriminate].
      cbn [mbind option_bind]. intros [= <- <-]. constructor.
      * rewrite Eh. reflexivity.
      * apply (IH _ _ eq_refl).
Qed.

(** an update by key leaves the rows with another key as they are, and in
    the rows it rewrites it leaves every column the update object does not
    name *)
Lemma exec_update_rows (t t' : Table) (u : gmap string Param) (i s : string)
    (out : list Row) :
  exec t (Update u (key_where i s)) = Some (t', Rows out) →
  Forall2 (fun r r' =>
             (¬ keyed i s r → r' = r)
             ∧ ∀ c, u !! col_name c = None → cell c r' = cell c r) t t'.
Proof.
  intros H. apply exec_update_inv, rewrite_rows_rel in H.
  eapply Forall2_impl; [exact H|]. intros r r' Hr. cbv beta in Hr.
  destruct (matches (key_bound i s) r) eqn:Em.
  - split.
    + intros Hk. apply matches_key in Em. contradiction.
    + intros c Hc. pose proof (row_of_cells_cell _ _ Hr c) as Hcell.
      unfold assigned in Hcell. rewrite Hc in Hcell. congruence.
  - subst r'. split; reflexivity.
Qed.

(** a row never holds NULL in a NOT NULL column *)
Lemma row_of_cells_not_null (f : Column → option Cell) (r : Row) (c : Column) :
  row_of_cells f = Some r → not_null c = true → f c ≠ Some CNull.
Proof.
  intros H Hn. rewrite (row_of_cells_cell _ _ H c).
  destruct c; try discriminate Hn; simpl; discriminate.
Qed.

Lemma exec_update_none (t t' : Table) (u : gmap string Param) (i s : string) :
  exec t (Update u (key_where i s)) = Some (t', Rows []) → t' = t.
Proof. intros H. apply exec_update_inv in H. eapply rewrite_rows_none, H. Qed.

(** C6 — Update: the update object holds a value for exactly the updatable
    fields the body defines; when it is empty the handler answers 400
    without a storage call and the table is as before; otherwise the one
    statement issued is the update by key; when that statement returns no
    row the handler answers not-found (and no row has changed); and when it
    runs, rows with another key are kept and the rows rewritten keep every
    column the update object does not name. *)
Theorem update_is_partial (Date_new : JsVal → option Z)
    (toFixed2 : string → option Z) (t : Table) (i s : string)
    (body : gmap string JsVal) (u : gmap string Param) :
  put_updateData Date_new toFixed2 body = inr u →
  (∀ k, is_Some (u !! k) ↔ k ∈ updatable_fields ∧ defined (field body k) = true)
  ∧ (u = ∅ →
       router_put Date_new toFixed2 t i s body
       = mkOutcome 400 (Failure "No fields provided for update") t [])
  ∧ (u ≠ ∅ →
       issued (router_put Date_new toFixed2 t i s body)
       = [Update u (key_where i s)]
       ∧ (∀ t', exec t (Update u (key_where i s)) = Some (t', Rows []) →
            router_put Date_new toFixed2 t i s body
            = mkOutcome 404 (Failure "Sales record not found") t
                [Update u (key_where i s)])
       ∧ (∀ t' out, exec t (Update u (key_where i s)) = Some (t', Rows out) →
            Forall2 (fun r r' =>
                       (¬ keyed i s r → r' = r)
                       ∧ ∀ c, u !! col_name c = None → cell c r' = cell c r)
                    t t')).
Proof.
  intros Hu. split; [intros k; eapply put_updateData_keys, Hu|].
  unfold router_put. rewrite Hu. split.
  - intros ->. reflexivity.
  - intros Hne. apply map_size_non_empty_iff in Hne.
    rewrite bool_decide_eq_false_2 by exact Hne. split; [|split].
    + destruct (exec t (Update u (key_where i s))) as [[t' [[|r rs]|n|a]]|];
        reflexivity.
    + intros t' Hex. rewrite Hex. apply exec_update_none in Hex. subst t'.
      reflexivity.
    + intros t' out. apply exec_update_rows.
Qed.

Lemma update_is_partial_witness :
  router_put sample_Date sample_toFixed2 sample_table "536365" "85123A" ∅
  = mkOutcome 400 (Failure "No fields provided for update") sample_table []
  ∧ router_put sample_Date sample_toFixed2 sample_table "000000" "85123A"
      body_quantity_7
  = mkOutcome 404 (Failure "Sales record not found") sample_table
      [Update {[ "quantity" := PNum (Num 7) ]} (key_where "000000" "85123A")]
  ∧ (is_Some (({[ "quantity" := PNum (Num 7) ]} : gmap string Param) !! "quantity")
     ↔ "quantity" ∈ updatable_fields
       ∧ defined (field body_quantity_7 "quantity") = true).
Proof.
  assert (He : put_updateData sample_Date sample_toFixed2 ∅ = inr ∅)
    by reflexivity.
  assert (Hq : put_updateData sample_Date sample_toFixed2 body_quantity_7
               = inr {[ "quantity" := PNum (Num 7) ]}) by reflexivity.
  pose proof (update_is_partial sample_Date sample_toFixed2 sample_table
                "536365" "85123A" _ _ He) as (_ & Hempty & _).
  pose proof (update_is_partial sample_Date sample_toFixed2 sample_table
                "000000" "85123A" _ _ Hq) as (Hkeys & _ & Hsome).
  split; [|split].
  - exact (Hempty eq_refl).
  - destruct (Hsome (insert_non_empty _ _ _)) as (_ & Hzero & _).
    apply (Hzero sample_table). reflexivity.
  - exact (Hkeys "quantity").
Defined.

Lemma exec_insert_inv (t t' : Table) (vals : gmap string Param) (out : list Row) :
  exec t (Insert vals) = Some (t', Rows out) →
  ∃ r, out = [r] ∧ t' = (t ++ [r])%list
       ∧ ∀ c, assigned vals (fun _ => CNull) c = Some (cell c r).
Proof.
  unfold exec.
  destruct (row_of_cells (assigned vals (fun _ => CNull))) as [r|] eqn:Er;
    [|discriminate].
  cbn [mbind option_bind]. intros [= <- <-]. exists r.
  repeat split. apply row_of_cells_cell, Er.
Qed.

Lemma cell_customerId_null (r : Row) :
  cell C_customerId r = CNull → customerId r = None.
Proof. simpl. destruct (customerId r); [discriminate|reflexivity]. Qed.

Lemma post_newRecord_customerId (Date_new : JsVal → option Z)
    (toFixed2 : string → option Z) (body : gmap string JsVal) :
  post_newRecord Date_new toFixed2 body !! "customerId"
  = Some (if truthy (field body "customerId")
          then PNum (parseInt (field body "customerId")) else PVal VNull).
Proof. reflexivity. Qed.

Lemma put_updateData_customerId (Date_new : JsVal → option Z)
    (toFixed2 : string → option Z) (body : gmap string JsVal)
    (u : gmap string Param) :
  put_updateData Date_new toFixed2 body = inr u →
  defined (field body "customerId") = true →
  u !! "customerId"
  = Some (if truthy (field body "customerId")
          then PNum (parseInt (field body "customerId")) else PVal VNull).
Proof.
  unfold put_updateData. intros H Hd. rewrite Hd in H.
  destruct (defined (field body "description"));
  destruct (defined (field body "quantity"));
  destruct (defined (field body "invoiceDate"));
  destruct (defined (field body "unitPrice"));
  destruct (defined (field body "country"));
  cbn [andb] in H;
  repeat match type of H with
  | context [if ?b then inl _ else _] => destruct b; [discriminate H|]
  end;
  injection H as <-; reflexivity.
Qed.

(* ===================================================================== *)
(** ** Create: validation *)
(* ===================================================================== *)

(** the create handler issues a statement exactly when both checks pass,
    and then it is the insert of the new record *)
Lemma router_post_issued (Date_new : JsVal → option Z)
    (toFixed2 : string → option Z) (t : Table) (body : gmap string JsVal) :
  issued (router_post Date_new toFixed2 t body)
  = if post_missing body || post_not_numeric body then []
    else [Insert (post_newRecord Date_new toFixed2 body)].
Proof.
  unfold router_post.
  destruct (post_missing body); [reflexivity|].
  destruct (post_not_numeric body); [reflexivity|].
  destruct (exec t (Insert (post_newRecord Date_new toFixed2 body)))
    as [[t' [[|r rs]|n|a]]|]; reflexivity.
Qed.

Lemma router_post_rejected (Date_new : JsVal → option Z)
    (toFixed2 : string → option Z) (t : Table) (body : gmap string JsVal) :
  post_missing body || post_not_numeric body = true →
  status (router_post Date_new toFixed2 t body) = 400
  ∧ table (router_post Date_new toFixed2 t body) = t
  ∧ issued (router_post Date_new toFixed2 t body) = [].
Proof.
  unfold router_post.
  destruct (post_missing body); [intros _; repeat split|].
  destruct (post_not_numeric body); [intros _; repeat split|discriminate].
Qed.

(** C2 — Create, at a body whose six required fields are all present and
    non-empty and whose quantity (the number 0) and unitPrice are numeric:
    the first check takes the falsy 0 for a missing field, the handler
    answers 400 "Missing required fields" and no insert is attempted. *)
Theorem create_rejects_quantity_zero :
  Forall (fun k => present_nonempty (field body_quantity_0 k)) required_fields
  ∧ isNaN (field body_quantity_0 "quantity") = false
  ∧ parseFloat_isNaN (field body_quantity_0 "unitPrice") = false
  ∧ router_post sample_Date sample_toFixed2 sample_table body_quantity_0
    = mkOutcome 400
        (Failure "Missing required fields: invoiceNo, stockCode, quantity, invoiceDate, unitPrice, country")
        sample_table [].
Proof.
  split.
  - unfold required_fields, present_nonempty.
    repeat constructor; discriminate.
  - repeat split.
Qed.

(* ===================================================================== *)
(** ** Listing: sort field and pagination *)
(* ===================================================================== *)

(** a documented sort field selects its column *)
Lemma list_sortField_documented :
  list_sortField {[ "sortBy" := "invoiceDate" ]} = FCol C_invoiceDate
  ∧ list_sortField {[ "sortBy" := "unitPrice" ]} = FCol C_unitPrice
  ∧ list_sortField {[ "sortBy" := "quantity" ]} = FCol C_quantity
  ∧ list_sortField ∅ = FCol C_invoiceDate.
Proof. repeat split. Qed.

(** a name that is no property of the table object falls back to
    invoiceDate *)
Lemma list_sortField_fallback (query : gmap string string) (s : string) :
  query !! "sortBy" = Some s →
  salesData !! s = None → s ∉ Table_methods → s ∉ Object_prototype →
  list_sortField query = FCol C_invoiceDate.
Proof.
  intros Hq Hs Hm Hp. unfold list_sortField, qfield, salesData_get.
  rewrite Hq. simpl. rewrite Hs.
  rewrite bool_decide_eq_false_2; [reflexivity|].
  intros Hin. unfold Table_methods in Hm.
  rewrite !elem_of_cons, elem_of_nil in Hm. rewrite !elem_of_cons in Hin. tauto.
Qed.

(** C1 — List, at sortBy=country: the name is not one of the documented sort
    fields (invoiceDate, unitPrice, quantity), yet the lookup on the table
    object finds the column, there is no fallback to invoiceDate, and the
    statement orders by country; at sortBy=toString the inherited property
    of the table object is what the statement is given. *)
Theorem sortBy_country_reaches_statement :
  bool_decide ("country" ∈ sortable_fields) = false
  ∧ list_sortField {[ "sortBy" := "country" ]} = FCol C_country
  ∧ list_select sample_Date {[ "sortBy" := "country" ]}
    = Select None (Some (sql_desc (FCol C_country))) (Some (Num 50)) (Some (Num 0))
  ∧ bool_decide ("toString" ∈ sortable_fields) = false
  ∧ list_sortField {[ "sortBy" := "toString" ]} = FProp "toString".
Proof. repeat split. Qed.

(** page and size when absent *)
Lemma list_pagination_defaults (query : gmap string string) :
  query !! "page" = None → query !! "limit" = None →
  list_pageNum query = Num 1 ∧ list_limitNum query = Num 50
  ∧ list_offset query = Num 0 ∧ top_products_limitNum query = Num 10.
Proof.
  intros Hp Hl.
  unfold list_offset, list_pageNum, list_limitNum, top_products_limitNum, qfield.
  rewrite Hp, Hl. repeat split.
Qed.

(** page and size when they parse: clamped, and offset = (page - 1) * size,
    as a double *)
Lemma list_pagination_parsed (query : gmap string string) (p l : Z) :
  parseInt (or_default (VNum "1") (qfield query "page")) = Num p →
  parseInt (or_default (VNum "50") (qfield query "limit")) = Num l →
  list_pageNum query = Num (Z.max 1 p)
  ∧ list_limitNum query = Num (Z.min 1000 (Z.max 1 l))
  ∧ (p < 2 ^ 53 →
     list_offset query
     = Num (to_double ((Z.max 1 p - 1) * Z.min 1000 (Z.max 1 l))))
  ∧ 1 ≤ Z.max 1 p ∧ 1 ≤ Z.min 1000 (Z.max 1 l) ≤ 1000.
Proof.
  intros Hp Hl. unfold list_offset, list_pageNum, list_limitNum.
  rewrite Hp, Hl. cbn [Math_max Math_min].
  split; [reflexivity|]. split; [reflexivity|]. split; [|lia].
  intros Hs. destruct (js_sub_one (Z.max 1 p)) as (a & -> & Ha & Hex); [lia|].
  rewrite Hex by lia.
  apply js_mul_limit; lia.
Qed.

Lemma top_products_limit_parsed (query : gmap string string) (l : Z) :
  parseInt (or_default (VNum "10") (qfield query "limit")) = Num l →
  top_products_limitNum query = Num (Z.min 100 (Z.max 1 l))
  ∧ 1 ≤ Z.min 100 (Z.max 1 l) ≤ 100.
Proof.
  intros Hl. unfold top_products_limitNum. rewrite Hl.
  cbn [Math_max Math_min]. split; [reflexivity|lia].
Qed.

(** C3 — Pagination, at page=abc and limit=abc (and at an empty limit):
    parseInt gives NaN, Math.max and Math.min pass it on, so the page
    number, the page size of the listing and of top-products, and the
    offset are NaN instead of a clamped number. *)
Theorem unparseable_page_and_limit_are_NaN :
  list_pageNum {[ "page" := "abc" ]} = NaN
  ∧ list_limitNum {[ "limit" := "abc" ]} = NaN
  ∧ list_offset {[ "page" := "abc" ]} = NaN
  ∧ list_offset {[ "limit" := "abc" ]} = NaN
  ∧ top_products_limitNum {[ "limit" := "abc" ]} = NaN
  ∧ list_limitNum {[ "limit" := "" ]} = NaN.
Proof. repeat split. Qed.

(* ===================================================================== *)
(** ** Create: the row written, and reading it back *)
(* ===================================================================== *)

Lemma row_of_cells_None (f : Column → option Cell) (c : Column) :
  f c = None → row_of_cells f = None.
Proof.
  intros Hc. destruct (row_of_cells f) as [r|] eqn:Er; [|reflexivity].
  rewrite (row_of_cells_cell _ _ Er c) in Hc. discriminate.
Qed.

(** the cells the insert is given, column by column *)
Lemma post_newRecord_assigned (Date_new : JsVal → option Z)
    (toFixed2 : string → option Z) (body : gmap string JsVal) (c : Column) :
  assigned (post_newRecord Date_new toFixed2 body) (fun _ => CNull) c
  = match c with
    | C_invoiceNo => CText <$> varchar 20 (ToString (field body "invoiceNo"))
    | C_stockCode => CText <$> varchar 20 (ToString (field body "stockCode"))
    | C_description =>
        if truthy (field body "description")
        then CText <$> varchar 255 (ToString (field body "description"))
        else Some CNull
    | C_quantity =>
        match parseInt (field body "quantity") with
        | Num z => if in_int4 z then Some (CInt z) else None
        | NaN => None
        end
    | C_invoiceDate =>
        match Date_new (field body "invoiceDate") with
        | Some d => if in_timestamp d then Some (CTime d) else None
        | None => None
        end
    | C_unitPrice => CNumeric <$> toFixed2 (ToString (field body "unitPrice"))
    | C_customerId =>
        if truthy (field body "customerId")
        then match parseInt (field body "customerId") with
             | Num z => if in_int4 z then Some (CInt z) else None
             | NaN => None
             end
        else Some CNull
    | C_country => CText <$> varchar 100 (ToString (field body "country"))
    end.
Proof.
  destruct c; unfold assigned;
    match goal with
    | |- context [col_name ?c] =>
        let k := eval cbv in (col_name c) in change (col_name c) with k
    end.
  - reflexivity.
  - reflexivity.
  - change (post_newRecord Date_new toFixed2 body !! "description")
      with (Some (PVal (js_or (field body "description") VNull))).
    unfold js_or. destruct (field body "description") as [| |[]|n|s];
      try reflexivity; (destruct (truthy _); reflexivity).
  - change (post_newRecord Date_new toFixed2 body !! "quantity")
      with (Some (PNum (parseInt (field body "quantity")))).
    simpl. destruct (parseInt _); reflexivity.
  - change (post_newRecord Date_new toFixed2 body !! "invoiceDate")
      with (Some (PDate (Date_new (field body "invoiceDate")))).
    simpl. destruct (Date_new _); reflexivity.
  - change (post_newRecord Date_new toFixed2 body !! "unitPrice")
      with (Some (PFixed (toFixed2 (ToString (field body "unitPrice"))))).
    simpl. destruct (toFixed2 _); reflexivity.
  - rewrite post_newRecord_customerId.
    destruct (truthy (field body "customerId")); [|reflexivity].
    simpl. destruct (parseInt _); reflexivity.
  - reflexivity.
Qed.

Lemma router_post_201 (Date_new : JsVal → option Z)
    (toFixed2 : string → option Z) (t t' : Table) (body : gmap string JsVal)
    (m : option string) (r : Row) (calls : list Stmt) :
  router_post Date_new toFixed2 t body = mkOutcome 201 (Single m r) t' calls →
  post_missing body = false ∧ post_not_numeric body = false
  ∧ row_of_cells (assigned (post_newRecord Date_new toFixed2 body) (fun _ => CNull))
    = Some r
  ∧ t' = (t ++ [r])%list
  ∧ m = Some "Sales record created successfully"
  ∧ calls = [Insert (post_newRecord Date_new toFixed2 body)].
Proof.
  unfold router_post.
  destruct (post_missing body); [discriminate|].
  destruct (post_not_numeric body); [discriminate|].
  unfold exec.
  destruct (row_of_cells _) as [r0|]; [|discriminate].
  cbn [mbind option_bind]. intros [= <- <- <- <-]. repeat split.
Qed.

Lemma router_post_status_201 (Date_new : JsVal → option Z)
    (toFixed2 : string → option Z) (t : Table) (body : gmap string JsVal) :
  status (router_post Date_new toFixed2 t body) = 201 →
  ∃ r, router_post Date_new toFixed2 t body
       = mkOutcome 201 (Single (Some "Sales record created successfully") r)
           (t ++ [r])%list [Insert (post_newRecord Date_new toFixed2 body)].
Proof.
  unfold router_post.
  destruct (post_missing body); [discriminate|].
  destruct (post_not_numeric body); [discriminate|].
  unfold exec.
  destruct (row_of_cells _) as [r0|]; [|discriminate].
  cbn [mbind option_bind]. intros _. exists r0. reflexivity.
Qed.

(** X1 — Create, on 201: the table is the old one with one row added at the
    end, and every field of that row is the coerced body value: invoiceNo,
    stockCode and country are the texts of the body values (cut to the
    column width, counted in characters, only where spaces are cut),
    quantity is [parseInt(quantity)], invoiceDate is
    [new Date(invoiceDate)], a date of the years 1 to 9999, unitPrice is
    [parseFloat(unitPrice).toFixed(2)], description is the body value or
    NULL when that is falsy, customerId is [parseInt(customerId)] or NULL
    when that is falsy. *)
Theorem created_row_fields (Date_new : JsVal → option Z)
    (toFixed2 : string → option Z) (t : Table) (body : gmap string JsVal) :
  status (router_post Date_new toFixed2 t body) = 201 →
  ∃ r : Row,
    table (router_post Date_new toFixed2 t body) = (t ++ [r])%list
    ∧ varchar 20 (ToString (field body "invoiceNo")) = Some (invoiceNo r)
    ∧ varchar 20 (ToString (field body "stockCode")) = Some (stockCode r)
    ∧ description r
      = (if truthy (field body "description")
         then varchar 255 (ToString (field body "description")) else None)
    ∧ parseInt (field body "quantity") = Num (quantity r)
    ∧ in_int4 (quantity r) = true
    ∧ Date_new (field body "invoiceDate") = Some (invoiceDate r)
    ∧ in_timestamp (invoiceDate r) = true
    ∧ toFixed2 (ToString (field body "unitPrice")) = Some (unitPrice r)
    ∧ (if truthy (field body "customerId")
       then ∃ n, parseInt (field body "customerId") = Num n
                 ∧ customerId r = Some n
       else customerId r = None)
    ∧ varchar 100 (ToString (field body "country")) = Some (country r).
Proof.
  intros H. apply router_post_status_201 in H. destruct H as [r H].
  exists r. rewrite H. cbn [table]. apply router_post_201 in H.
  destruct H as (_ & _ & Hrow & _ & _ & _).
  pose proof (fun c => eq_trans (eq_sym (post_newRecord_assigned Date_new toFixed2 body c))
                         (row_of_cells_cell _ _ Hrow c)) as Hc.
  split; [reflexivity|].
  split; [specialize (Hc C_invoiceNo); simpl in Hc;
          destruct (varchar 20 _); simpl in Hc; congruence|].
  split; [specialize (Hc C_stockCode); simpl in Hc;
          destruct (varchar 20 _); simpl in Hc; congruence|].
  split.
  { specialize (Hc C_description). simpl in Hc.
    destruct (truthy (field body "description")).
    - destruct (varchar 255 _); simpl in Hc; [|discriminate].
      destruct (description r); simpl in Hc; congruence.
    - destruct (description r); simpl in Hc; congruence. }
  assert (Hq : parseInt (field body "quantity") = Num (quantity r)
               ∧ in_int4 (quantity r) = true).
  { specialize (Hc C_quantity). simpl in Hc.
    destruct (parseInt (field body "quantity")) as [|z]; [discriminate|].
    destruct (in_int4 z) eqn:E4; [|discriminate].
    injection Hc as ->. split; [reflexivity|exact E4]. }
  split; [apply Hq|]. split; [apply Hq|].
  assert (Hd : Date_new (field body "invoiceDate") = Some (invoiceDate r)
               ∧ in_timestamp (invoiceDate r) = true).
  { specialize (Hc C_invoiceDate). simpl in Hc.
    destruct (Date_new (field body "invoiceDate")) as [d|]; [|discriminate].
    destruct (in_timestamp d) eqn:Ed; [|discriminate].
    injection Hc as ->. split; [reflexivity|exact Ed]. }
  split; [apply Hd|]. split; [apply Hd|].
  split; [specialize (Hc C_unitPrice); simpl in Hc;
          destruct (toFixed2 _); simpl in Hc; congruence|].
  split.
  { specialize (Hc C_customerId). simpl in Hc.
    destruct (truthy (field body "customerId")).
    - destruct (parseInt (field body "customerId")) as [|z]; [discriminate|].
      destruct (in_int4 z); [|discriminate].
      exists z. split; [reflexivity|].
      destruct (customerId r); simpl in Hc; congruence.
    - destruct (customerId r); simpl in Hc; congruence. }
  specialize (Hc C_country). simpl in Hc.
  destruct (varchar 100 _); simpl in Hc; congruence.
Qed.

Lemma created_row_fields_witness :
  ∃ r : Row,
    table (router_post sample_Date sample_toFixed2 sample_table body_customer_0)
    = (sample_table ++ [r])%list
    ∧ parseInt (field body_customer_0 "quantity") = Num (quantity r)
    ∧ sample_toFixed2 (ToString (field body_customer_0 "unitPrice"))
      = Some (unitPrice r)
    ∧ customerId r = None.
Proof.
  assert (Hrun : status (router_post sample_Date sample_toFixed2 sample_table
                           body_customer_0) = 201) by reflexivity.
  destruct (created_row_fields _ _ _ _ Hrun)
    as (r & Ht & _ & _ & _ & Hq & _ & _ & _ & Hp & Hc & _).
  exists r. split; [exact Ht|]. split; [exact Hq|]. split; [exact Hp|exact Hc].
Defined.

Lemma filter_keyed_app (i s : string) (t : Table) (r : Row) :
  keyed i s r →
  filter (keyed i s) (t ++ [r])%list = (filter (keyed i s) t ++ [r])%list.
Proof.
  intros Hk. rewrite filter_app. f_equal.
  rewrite filter_cons. destruct (decide (keyed i s r)); [reflexivity|contradiction].
Qed.

(** X2 — Create then Get-one: after a 201 the lookup by the key of the new
    row never answers not-found; it answers 200 with a record of that key,
    and with the new row itself when no earlier row had the key. *)
Theorem create_then_get_one (Date_new : JsVal → option Z)
    (toFixed2 : string → option Z) (t t' : Table) (body : gmap string JsVal)
    (m : option string) (r : Row) (calls : list Stmt) :
  router_post Date_new toFixed2 t body = mkOutcome 201 (Single m r) t' calls →
  ∃ d, router_get_one t' (invoiceNo r) (stockCode r)
       = mkOutcome 200 (Single None d) t'
           [Select (Some (key_where (invoiceNo r) (stockCode r))) None
                   (Some (Num 1)) None]
       ∧ keyed (invoiceNo r) (stockCode r) d
       ∧ (filter (keyed (invoiceNo r) (stockCode r)) t = [] → d = r).
Proof.
  intros H. apply router_post_201 in H. destruct H as (_ & _ & _ & -> & _ & _).
  rewrite router_get_one_eq. cbv zeta.
  rewrite filter_keyed_app by (split; reflexivity).
  destruct (filter (keyed (invoiceNo r) (stockCode r)) t) as [|d rest] eqn:Ef.
  - exists r. simpl. repeat split.
  - exists d. simpl. split; [reflexivity|]. split; [|discriminate].
    assert (Hin : d ∈ filter (keyed (invoiceNo r) (stockCode r)) t)
      by (rewrite Ef; left).
    apply list_elem_of_filter in Hin. tauto.
Qed.

Lemma create_then_get_one_witness :
  ∃ d, router_get_one
         (sample_table ++ [mkRow "536365" "85123A" None 6 1291191960000 255 None
                                 "United Kingdom"])%list "536365" "85123A"
       = mkOutcome 200 (Single None d)
           (sample_table ++ [mkRow "536365" "85123A" None 6 1291191960000 255
                                   None "United Kingdom"])%list
           [Select (Some (key_where "536365" "85123A")) None (Some (Num 1)) None]
       ∧ keyed "536365" "85123A" d.
Proof.
  assert (Hrun : router_post sample_Date sample_toFixed2 sample_table body_customer_0
    = mkOutcome 201
      (Single (Some "Sales record created successfully")
         (mkRow "536365" "85123A" None 6 1291191960000 255 None "United Kingdom"))
      (sample_table ++ [mkRow "536365" "85123A" None 6 1291191960000 255 None
                              "United Kingdom"])%list
      [Insert (post_newRecord sample_Date sample_toFixed2 body_customer_0)])
    by reflexivity.
  destruct (create_then_get_one _ _ _ _ _ _ _ _ Hrun) as (d & Hget & Hk & _).
  exists d. split; [exact Hget|exact Hk].
Defined.

(** X3 — Create keeps no uniqueness: the table declares no key, so a
    request that was answered 201 is answered 201 again when repeated, and
    the table then holds the row twice. *)
Theorem create_twice_adds_two_rows (Date_new : JsVal → option Z)
    (toFixed2 : string → option Z) (t t' : Table) (body : gmap string JsVal)
    (m : option string) (r : Row) (calls : list Stmt) :
  router_post Date_new toFixed2 t body = mkOutcome 201 (Single m r) t' calls →
  router_post Date_new toFixed2 t' body
  = mkOutcome 201 (Single m r) (t ++ [r; r])%list calls.
Proof.
  intros H. apply router_post_201 in H.
  destruct H as (Hm & Hn & Hrow & -> & -> & ->).
  unfold router_post, exec. rewrite Hm, Hn, Hrow. cbn [mbind option_bind].
  rewrite <- app_assoc. reflexivity.
Qed.

Lemma create_twice_adds_two_rows_witness :
  status (router_post sample_Date sample_toFixed2
            (table (router_post sample_Date sample_toFixed2 sample_table
                      body_customer_0)) body_customer_0) = 201
  ∧ length (table (router_post sample_Date sample_toFixed2
            (table (router_post sample_Date sample_toFixed2 sample_table
                      body_customer_0)) body_customer_0)) = 5%nat.
Proof.
  assert (Hrun : router_post sample_Date sample_toFixed2 sample_table body_customer_0
    = mkOutcome 201
      (Single (Some "Sales record created successfully")
         (mkRow "536365" "85123A" None 6 1291191960000 255 None "United Kingdom"))
      (sample_table ++ [mkRow "536365" "85123A" None 6 1291191960000 255 None
                              "United Kingdom"])%list
      [Insert (post_newRecord sample_Date sample_toFixed2 body_customer_0)])
    by reflexivity.
  pose proof (create_twice_adds_two_rows _ _ _ _ _ _ _ _ Hrun) as H2.
  rewrite Hrun. cbn [table]. rewrite H2. split; reflexivity.
Defined.

(** X4 — Create, validation passed but a value cannot be stored: when
    [parseInt(quantity)] is NaN (quantity [true], ["Infinity"]), or
    invoiceDate is no date, or the price text is refused, or a truthy
    customerId does not parse, the insert is attempted and fails, the
    handler answers 500 (not 400), and the table is as before. *)
Theorem create_unstorable_is_500 (Date_new : JsVal → option Z)
    (toFixed2 : string → option Z) (t : Table) (body : gmap string JsVal) :
  post_missing body = false → post_not_numeric body = false →
  parseInt (field body "quantity") = NaN
  ∨ Date_new (field body "invoiceDate") = None
  ∨ toFixed2 (ToString (field body "unitPrice")) = None
  ∨ (truthy (field body "customerId") = true
     ∧ parseInt (field body "customerId") = NaN) →
  router_post Date_new toFixed2 t body
  = mkOutcome 500 (Failure "Failed to create sales record") t
      [Insert (post_newRecord Date_new toFixed2 body)].
Proof.
  intros Hm Hn Hbad. unfold router_post, exec. rewrite Hm, Hn.
  assert (Hnone : row_of_cells
            (assigned (post_newRecord Date_new toFixed2 body) (fun _ => CNull))
          = None).
  { destruct Hbad as [Hq|[Hd|[Hp|[Hc1 Hc2]]]].
    - apply (row_of_cells_None _ C_quantity).
      rewrite post_newRecord_assigned, Hq. reflexivity.
    - apply (row_of_cells_None _ C_invoiceDate).
      rewrite post_newRecord_assigned, Hd. reflexivity.
    - apply (row_of_cells_None _ C_unitPrice).
      rewrite post_newRecord_assigned, Hp. reflexivity.
    - apply (row_of_cells_None _ C_customerId).
      rewrite post_newRecord_assigned, Hc1, Hc2. reflexivity. }
  rewrite Hnone. reflexivity.
Qed.

Lemma create_unstorable_is_500_witness :
  router_post sample_Date sample_toFixed2 sample_table body_bad_date
  = mkOutcome 500 (Failure "Failed to create sales record") sample_table
      [Insert (post_newRecord sample_Date sample_toFixed2 body_bad_date)].
Proof.
  apply create_unstorable_is_500; [reflexivity|reflexivity|].
  right. left. reflexivity.
Defined.

(* ===================================================================== *)
(** ** What a request may change *)
(* ===================================================================== *)

(** X5 — Only a successful write changes the table: Create leaves it as it
    was unless it answers 201, Update and Delete unless they answer 200,
    and the four read routes always. *)
Theorem only_success_changes_table (Date_new : JsVal → option Z)
    (toFixed2 : string → option Z) (t : Table) (i s : string)
    (body : gmap string JsVal) (query : gmap string string) :
  (status (router_post Date_new toFixed2 t body) = 201
   ∨ table (router_post Date_new toFixed2 t body) = t)
  ∧ (status (router_put Date_new toFixed2 t i s body) = 200
     ∨ table (router_put Date_new toFixed2 t i s body) = t)
  ∧ (status (router_delete t i s) = 200 ∨ table (router_delete t i s) = t)
  ∧ table (router_get_root Date_new t query) = t
  ∧ table (router_get_one t i s) = t
  ∧ table (router_get_analytics_summary Date_new t query) = t
  ∧ top_table (router_get_analytics_top_products Date_new t query) = t.
Proof.
  repeat split.
  - unfold router_post.
    destruct (post_missing body); [right; reflexivity|].
    destruct (post_not_numeric body); [right; reflexivity|].
    destruct (exec t _) as [[t' [[|r rs]|n|a]]|];
      (left; reflexivity) || (right; reflexivity).
  - unfold router_put.
    destruct (put_updateData Date_new toFixed2 body) as [msg|u];
      [right; reflexivity|].
    destruct (bool_decide _); [right; reflexivity|].
    destruct (exec t _) as [[t' [[|r rs]|n|a]]|] eqn:Ex;
      try (left; reflexivity); try (right; reflexivity).
    right. simpl. eapply exec_update_none, Ex.
  - rewrite router_delete_eq.
    destruct (filter (keyed i s) t) as [|r rs] eqn:Ef; [right|left; reflexivity].
    simpl. apply filter_all. intros x Hx Hk.
    assert (Hin : x ∈ filter (keyed i s) t) by (apply list_elem_of_filter; tauto).
    rewrite Ef in Hin. inversion Hin.
  - unfold router_get_root.
    destruct (exec t (list_select Date_new query)) as [[t1 [rs|n|a]]|];
      destruct (exec t (list_count Date_new query)) as [[t2 [rs2|n2|a2]]|]; reflexivity.
  - rewrite router_get_one_eq. cbv zeta.
    destruct (filter (keyed i s) t); reflexivity.
  - unfold router_get_analytics_summary.
    destruct (exec t _) as [[t1 [rs|n|a]]|]; reflexivity.
  - unfold router_get_analytics_top_products.
    destruct (exec_top_products _ _ _); reflexivity.
Qed.

(* ===================================================================== *)
(** ** Update: the rows rewritten, and reading them back *)
(* ===================================================================== *)

(** the update object never names a key column *)
Lemma put_updateData_no_key (Date_new : JsVal → option Z)
    (toFixed2 : string → option Z) (body : gmap string JsVal)
    (u : gmap string Param) :
  put_updateData Date_new toFixed2 body = inr u →
  u !! col_name C_invoiceNo = None ∧ u !! col_name C_stockCode = None.
Proof.
  intros Hu. split; apply eq_None_not_Some; intros Hs;
    apply (put_updateData_keys _ _ _ _ _ Hu) in Hs; destruct Hs as [Hk _];
    apply updatable_fields_spec in Hk; simpl in Hk;
    repeat (destruct Hk as [Hk|Hk]; [discriminate|]); discriminate.
Qed.

Lemma rewrite_rows_filter (hit : Row → bool) (f : Row → option Row)
    (P : Row → Prop) `{∀ r, Decision (P r)} (t t' : Table) (out : list Row) :
  (∀ r r', hit r = true → f r = Some r' → P r') →
  (∀ r, hit r = false → ¬ P r) →
  rewrite_rows hit f t = Some (t', out) →
  filter P t' = out ∧ length t' = length t
  ∧ length out = length (filter (fun r => hit r = true) t).
Proof.
  intros Hhit Hmiss. revert t' out.
  induction t as [|r t IH]; intros t' out; cbn [rewrite_rows].
  - intros [= <- <-]. repeat split.
  - rewrite (filter_cons (fun r => hit r = true)). destruct (hit r) eqn:Eh.
    + destruct (f r) as [r'|] eqn:Ef; [|discriminate]. cbn [mbind option_bind].
      destruct (rewrite_rows hit f t) as [[t'' out']|]; [|discriminate].
      cbn [mbind option_bind]. intros [= <- <-].
      destruct (IH _ _ eq_refl) as (IH1 & IH2 & IH3).
      rewrite (filter_cons P).
      destruct (decide (P r')) as [_|Hn]; [|exfalso; eauto].
      destruct (decide (true = true)); [|congruence].
      split; [f_equal; exact IH1|]. cbn [length]. rewrite IH2, IH3.
      split; reflexivity.
    + destruct (rewrite_rows hit f t) as [[t'' out']|]; [|discriminate].
      cbn [mbind option_bind]. intros [= <- <-].
      destruct (IH _ _ eq_refl) as (IH1 & IH2 & IH3).
      rewrite (filter_cons P).
      destruct (decide (P r)) as [Hp|_]; [exfalso; eapply Hmiss; eauto|].
      destruct (decide (false = true)); [congruence|].
      cbn [length]. rewrite IH2. repeat split; assumption.
Qed.

(** an update by key, with an update object of the handler: the rows
    returned are the rows of the new table with the key, one for each row
    that had it *)
Lemma exec_update_keyed (Date_new : JsVal → option Z)
    (toFixed2 : string → option Z) (body : gmap string JsVal)
    (u : gmap string Param) (t t' : Table) (i s : string) (out : list Row) :
  put_updateData Date_new toFixed2 body = inr u →
  exec t (Update u (key_where i s)) = Some (t', Rows out) →
  filter (keyed i s) t' = out ∧ length t' = length t
  ∧ length out = length (filter (keyed i s) t)
  ∧ map invoiceNo t' = map invoiceNo t ∧ map stockCode t' = map stockCode t.
Proof.
  intros Hu Hex. destruct (put_updateData_no_key _ _ _ _ Hu) as [Hi Hs].
  pose proof (exec_update_rows _ _ _ _ _ _ Hex) as Hrows.
  apply exec_update_inv in Hex.
  assert (Hkeep : ∀ r r', row_of_cells (assigned u (fun c => cell c r)) = Some r' →
                  invoiceNo r' = invoiceNo r ∧ stockCode r' = stockCode r).
  { intros r r' Hr.
    pose proof (row_of_cells_cell _ _ Hr C_invoiceNo) as H1.
    pose proof (row_of_cells_cell _ _ Hr C_stockCode) as H2.
    unfold assigned in H1, H2. rewrite Hi in H1. rewrite Hs in H2.
    simpl in H1, H2. split; congruence. }
  assert (A1 : ∀ r r', matches (key_bound i s) r = true →
               row_of_cells (assigned u (fun c => cell c r)) = Some r' →
               keyed i s r').
  { intros r r' Hh Hf. apply matches_key in Hh.
    destruct (Hkeep _ _ Hf) as [E1 E2]. destruct Hh as [<- <-].
    split; assumption. }
  assert (A2 : ∀ r, matches (key_bound i s) r = false → ¬ keyed i s r).
  { intros r Hh Hk. apply matches_key in Hk. congruence. }
  destruct (rewrite_rows_filter _ _ (keyed i s) _ _ _ A1 A2 Hex) as (H1 & H2 & H3).
  split; [exact H1|]. split; [exact H2|]. split.
  { rewrite H3. f_equal. apply list_filter_iff. intros r. apply matches_key. }
  clear -Hrows Hi Hs. induction Hrows as [|r r' t t' [_ Hc] _ IH]; [split; reflexivity|].
  destruct IH as [IH1 IH2]. simpl. rewrite IH1, IH2.
  pose proof (Hc C_invoiceNo Hi) as E1. pose proof (Hc C_stockCode Hs) as E2.
  simpl in E1, E2. split; congruence.
Qed.

(** the rows with the key and the rows without it, before and after an
    update that names no key column *)
Lemma update_rows_by_key (u : gmap string Param) (i s : string) (t t' : Table) :
  u !! "invoiceNo" = None → u !! "stockCode" = None →
  Forall2 (fun r r' =>
             (¬ keyed i s r → r' = r)
             ∧ ∀ c, u !! col_name c = None → cell c r' = cell c r) t t' →
  filter (fun r => ¬ keyed i s r) t' = filter (fun r => ¬ keyed i s r) t
  ∧ Forall2 (fun r r' => ∀ c, u !! col_name c = None → cell c r' = cell c r)
            (filter (keyed i s) t) (filter (keyed i s) t').
Proof.
  intros Hi Hs H.
  induction H as [|r r' l l' [Hn Hc] _ [IH1 IH2]]; [split; [reflexivity|constructor]|].
  assert (Hk : keyed i s r' ↔ keyed i s r).
  { pose proof (Hc C_invoiceNo Hi) as E1. pose proof (Hc C_stockCode Hs) as E2.
    simpl in E1, E2. injection E1 as E1. injection E2 as E2.
    unfold keyed. rewrite E1, E2. tauto. }
  rewrite !(filter_cons (keyed i s)), !(filter_cons (fun r => ¬ keyed i s r)).
  destruct (decide (keyed i s r)) as [Hr|Hr];
    destruct (decide (keyed i s r')) as [Hr'|Hr']; try tauto;
    destruct (decide (¬ keyed i s r)) as [Hq|Hq];
    destruct (decide (¬ keyed i s r')) as [Hq'|Hq']; try tauto.
  - split; [exact IH1|]. constructor; [exact Hc|exact IH2].
  - split; [|exact IH2]. rewrite (Hn Hr). f_equal. exact IH1.
Qed.

(** what a successful update has done *)
Lemma router_put_200 (Date_new : JsVal → option Z)
    (toFixed2 : string → option Z) (t : Table) (i s : string)
    (body : gmap string JsVal) :
  status (router_put Date_new toFixed2 t i s body) = 200 →
  ∃ u t' r out,
    put_updateData Date_new toFixed2 body = inr u
    ∧ exec t (Update u (key_where i s)) = Some (t', Rows (r :: out))
    ∧ router_put Date_new toFixed2 t i s body
      = mkOutcome 200 (Single (Some "Sales record updated successfully") r) t'
          [Update u (key_where i s)].
Proof.
  unfold router_put.
  destruct (put_updateData Date_new toFixed2 body) as [msg|u] eqn:Hu;
    [discriminate|].
  destruct (bool_decide _); [discriminate|].
  destruct (exec t _) as [[t1 [[|r1 rs]|n|a]]|] eqn:Hex; try discriminate.
  intros _. exists u, t1, r1, rs. split; [reflexivity|].
  split; [exact Hex|]. reflexivity.
Qed.

(* ===================================================================== *)
(** ** customerId on create and on update *)
(* ===================================================================== *)

(** C10 — customerId: a create whose customerId is falsy (absent, null, the
    number 0, the empty string, false) hands NULL to the insert, and the row
    it adds to the table has no customerId; an update that succeeds with a
    body that defines a falsy customerId sets customerId to NULL in every
    row with the key and leaves the other rows as they were; an update
    whose body has no customerId does not name the column and leaves the
    customerId of every row with the key as it was. *)
Theorem falsy_customerId_is_stored_null (Date_new : JsVal → option Z)
    (toFixed2 : string → option Z) (t : Table) (i s : string)
    (body : gmap string JsVal) :
  truthy (field body "customerId") = false →
  post_newRecord Date_new toFixed2 body !! "customerId" = Some (PVal VNull)
  ∧ (status (router_post Date_new toFixed2 t body) = 201 →
       ∃ r, table (router_post Date_new toFixed2 t body) = (t ++ [r])%list
            ∧ customerId r = None)
  ∧ (status (router_put Date_new toFixed2 t i s body) = 200 →
       ∃ u,
         issued (router_put Date_new toFixed2 t i s body)
         = [Update u (key_where i s)]
         ∧ filter (fun r => ¬ keyed i s r)
                  (table (router_put Date_new toFixed2 t i s body))
           = filter (fun r => ¬ keyed i s r) t
         ∧ length (filter (keyed i s)
                          (table (router_put Date_new toFixed2 t i s body)))
           = length (filter (keyed i s) t)
         ∧ filter (keyed i s) t ≠ []
         ∧ if defined (field body "customerId")
           then u !! "customerId" = Some (PVal VNull)
                ∧ Forall (fun r => customerId r = None)
                    (filter (keyed i s)
                            (table (router_put Date_new toFixed2 t i s body)))
           else u !! "customerId" = None
                ∧ map customerId
                    (filter (keyed i s)
                            (table (router_put Date_new toFixed2 t i s body)))
                  = map customerId (filter (keyed i s) t)).
Proof.
  intros Hf.
  assert (Hrec : post_newRecord Date_new toFixed2 body !! "customerId"
                 = Some (PVal VNull)).
  { rewrite post_newRecord_customerId, Hf. reflexivity. }
  split; [exact Hrec|]. split.
  - intros H201. apply router_post_status_201 in H201. destruct H201 as [r Hrun].
    exists r. rewrite Hrun. cbn [table]. split; [reflexivity|].
    apply router_post_201 in Hrun. destruct Hrun as (_ & _ & Hrow & _).
    apply cell_customerId_null.
    pose proof (row_of_cells_cell _ _ Hrow C_customerId) as Hc.
    unfold assigned in Hc. change (col_name C_customerId) with "customerId" in Hc.
    rewrite Hrec in Hc. simpl in Hc |- *. congruence.
  - intros H200. apply router_put_200 in H200.
    destruct H200 as (u & t' & r & out & Hu & Hex & Hrun).
    exists u. rewrite Hrun. cbn [issued table]. split; [reflexivity|].
    destruct (put_updateData_no_key _ _ _ _ Hu) as [Hi Hs].
    destruct (update_rows_by_key u i s t t' Hi Hs
                (exec_update_rows _ _ _ _ _ _ Hex)) as [Hother Hkeyed].
    destruct (exec_update_keyed _ _ _ _ _ _ _ _ _ Hu Hex) as (Hout & _ & Hlen & _).
    split; [exact Hother|]. split; [rewrite Hout; exact Hlen|].
    split; [intros Hnil; rewrite Hnil in Hlen; discriminate Hlen|].
    destruct (defined (field body "customerId")) eqn:Hd.
    + assert (Hset : u !! "customerId" = Some (PVal VNull)).
      { rewrite (put_updateData_customerId _ _ _ _ Hu Hd), Hf. reflexivity. }
      split; [exact Hset|]. rewrite Hout.
      apply exec_update_inv, rewrite_rows_out in Hex.
      eapply Forall_impl; [exact Hex|].
      intros r' (r0 & _ & _ & Hrow). apply cell_customerId_null.
      pose proof (row_of_cells_cell _ _ Hrow C_customerId) as Hc.
      unfold assigned in Hc.
      change (col_name C_customerId) with "customerId" in Hc.
      rewrite Hset in Hc. simpl in Hc |- *. congruence.
    + assert (Hnone : u !! "customerId" = None).
      { apply eq_None_not_Some. intros Hsome.
        apply (put_updateData_keys _ _ _ _ "customerId" Hu) in Hsome.
        destruct Hsome as [_ Hdef]. congruence. }
      split; [exact Hnone|].
      clear -Hkeyed Hnone. induction Hkeyed as [|x y l l' Hc _ IH]; [reflexivity|].
      cbn [map]. rewrite IH. f_equal.
      specialize (Hc C_customerId Hnone). simpl in Hc.
      destruct (customerId x), (customerId y); simpl in Hc; congruence.
Qed.

Lemma falsy_customerId_is_stored_null_witness :
  (∃ r, table (router_post sample_Date sample_toFixed2 sample_table body_customer_0)
        = (sample_table ++ [r])%list
        ∧ customerId r = None)
  ∧ Forall (fun r => customerId r = None)
      (filter (keyed "536365" "85123A")
         (table (router_put sample_Date sample_toFixed2 sample_table
                   "536365" "85123A" body_customer_only)))
  ∧ map customerId
      (filter (keyed "536365" "85123A")
         (table (router_put sample_Date sample_toFixed2 sample_table
                   "536365" "85123A" body_quantity_7)))
    = [Some 17850; Some 12583].
Proof.
  pose proof (falsy_customerId_is_stored_null sample_Date sample_toFixed2
                sample_table "536365" "85123A" body_customer_0 eq_refl)
    as (_ & Hpost & _).
  pose proof (falsy_customerId_is_stored_null sample_Date sample_toFixed2
                sample_table "536365" "85123A" body_customer_only eq_refl)
    as (_ & _ & Hput).
  pose proof (falsy_customerId_is_stored_null sample_Date sample_toFixed2
                sample_table "536365" "85123A" body_quantity_7 eq_refl)
    as (_ & _ & Hkeep).
  split; [apply Hpost; reflexivity|]. split.
  - destruct (Hput eq_refl) as (u & _ & _ & _ & _ & Hdef).
    change (defined (field body_customer_only "customerId")) with true in Hdef.
    apply Hdef.
  - destruct (Hkeep eq_refl) as (u & _ & _ & _ & _ & Hdef).
    change (defined (field body_quantity_7 "customerId")) with false in Hdef.
    destruct Hdef as [_ Hmap]. rewrite Hmap. reflexivity.
Defined.

(** the claim as stated fails on an update whose body has no customerId:
    the supplied value is undefined, hence falsy, yet the rows with the key
    keep their customerId *)
Lemma falsy_customerId_counterexample :
  truthy (field body_quantity_7 "customerId") = false
  ∧ status (router_put sample_Date sample_toFixed2 sample_table
              "536365" "85123A" body_quantity_7) = 200
  ∧ ¬ Forall (fun r => customerId r = None)
        (filter (keyed "536365" "85123A")
           (table (router_put sample_Date sample_toFixed2 sample_table
                     "536365" "85123A" body_quantity_7))).
Proof.
  split; [reflexivity|]. split; [reflexivity|].
  intros H. vm_compute in H. inversion H as [|? ? Hc _]. discriminate Hc.
Qed.

(* ===================================================================== *)
(** ** Update: reading back, and the rows rewritten *)
(* ===================================================================== *)

(** X6 — Update then Get-one: after an update answered 200, the lookup by
    the same key answers 200 with a row that carries the key and is one of
    the rows the update statement returned; when just one row had the key
    it is the record of the update's reply. *)
Theorem update_then_get_one (Date_new : JsVal → option Z)
    (toFixed2 : string → option Z) (t : Table) (i s : string)
    (body : gmap string JsVal) :
  status (router_put Date_new toFixed2 t i s body) = 200 →
  ∃ u out r',
    issued (router_put Date_new toFixed2 t i s body) = [Update u (key_where i s)]
    ∧ exec t (Update u (key_where i s))
      = Some (table (router_put Date_new toFixed2 t i s body), Rows out)
    ∧ status (router_get_one (table (router_put Date_new toFixed2 t i s body)) i s)
      = 200
    ∧ reply (router_get_one (table (router_put Date_new toFixed2 t i s body)) i s)
      = Single None r'
    ∧ keyed i s r' ∧ r' ∈ out
    ∧ (length (filter (keyed i s) t) = 1%nat →
       reply (router_put Date_new toFixed2 t i s body)
       = Single (Some "Sales record updated successfully") r').
Proof.
  intros H200. apply router_put_200 in H200.
  destruct H200 as (u & t' & r & out & Hu & Hex & Hrun).
  destruct (exec_update_keyed _ _ _ _ _ _ _ _ _ Hu Hex) as (Hf & _ & Hlen & _).
  exists u, (r :: out), r. rewrite Hrun. cbn [issued table reply].
  split; [reflexivity|]. split; [exact Hex|].
  rewrite router_get_one_eq, Hf. cbn [status reply].
  split; [reflexivity|]. split; [reflexivity|].
  assert (Hin : r ∈ filter (keyed i s) t') by (rewrite Hf; left).
  apply list_elem_of_filter in Hin.
  split; [tauto|]. split; [left|]. reflexivity.
Qed.

Lemma update_then_get_one_witness :
  ∃ r',
    reply (router_get_one
             (table (router_put sample_Date sample_toFixed2 sample_table
                       "536370" "22728" body_quantity_7)) "536370" "22728")
    = Single None r'
    ∧ keyed "536370" "22728" r'
    ∧ reply (router_put sample_Date sample_toFixed2 sample_table
               "536370" "22728" body_quantity_7)
      = Single (Some "Sales record updated successfully") r'.
Proof.
  destruct (update_then_get_one sample_Date sample_toFixed2 sample_table
              "536370" "22728" body_quantity_7 eq_refl)
    as (u & out & r' & _ & _ & _ & Hget & Hk & _ & Hone).
  exists r'. split; [exact Hget|]. split; [exact Hk|]. apply Hone. reflexivity.
Defined.

(** X7 — Update rewrites every row with the key and no other: when the
    update statement runs, it returns one row for each row that had the key
    (all duplicates are rewritten), these are the rows with the key
    afterwards, the rows with another key are as before, the table keeps
    its length, and the handler answers 404 when no row had the key and 200
    otherwise; when the statement fails the handler answers 500 and the
    table is as before. *)
Theorem update_rewrites_every_keyed_row (Date_new : JsVal → option Z)
    (toFixed2 : string → option Z) (t : Table) (i s : string)
    (body : gmap string JsVal) (u : gmap string Param) :
  put_updateData Date_new toFixed2 body = inr u → u ≠ ∅ →
  match exec t (Update u (key_where i s)) with
  | Some (t', Rows out) =>
      out ≡ₚ filter (keyed i s) t'
      ∧ length out = length (filter (keyed i s) t)
      ∧ length t' = length t
      ∧ filter (fun r => ¬ keyed i s r) t' = filter (fun r => ¬ keyed i s r) t
      ∧ table (router_put Date_new toFixed2 t i s body) = t'
      ∧ (status (router_put Date_new toFixed2 t i s body) = 404
         ↔ filter (keyed i s) t = [])
      ∧ (status (router_put Date_new toFixed2 t i s body) = 200
         ↔ filter (keyed i s) t ≠ [])
  | _ =>
      status (router_put Date_new toFixed2 t i s body) = 500
      ∧ table (router_put Date_new toFixed2 t i s body) = t
  end.
Proof.
  intros Hu Hne.
  unfold router_put. rewrite Hu.
  apply map_size_non_empty_iff in Hne.
  rewrite bool_decide_eq_false_2 by exact Hne.
  destruct (exec t (Update u (key_where i s))) as [[t' [out|n|a]]|] eqn:Hex;
    try (split; reflexivity).
  destruct (exec_update_keyed _ _ _ _ _ _ _ _ _ Hu Hex) as (Hf & Hl & Hn & _).
  destruct (put_updateData_no_key _ _ _ _ Hu) as [Hi Hs].
  destruct (update_rows_by_key u i s t t' Hi Hs
              (exec_update_rows _ _ _ _ _ _ Hex)) as [Hother _].
  split; [rewrite Hf; reflexivity|]. split; [exact Hn|]. split; [exact Hl|].
  split; [exact Hother|].
  destruct out as [|r rs]; simpl in Hn; cbn [status table].
  - symmetry in Hn. apply length_zero_iff_nil in Hn. rewrite Hn.
    repeat split; try reflexivity; try discriminate; intros; congruence.
  - destruct (filter (keyed i s) t); [discriminate Hn|].
    repeat split; try reflexivity; try discriminate; intros; congruence.
Qed.

Lemma update_rewrites_every_keyed_row_witness :
  length (filter (keyed "536365" "85123A") sample_table) = 2%nat
  ∧ (status (router_put sample_Date sample_toFixed2 sample_table
               "536365" "85123A" body_quantity_7) = 200
     ↔ filter (keyed "536365" "85123A") sample_table ≠ [])
  ∧ map quantity (filter (keyed "536365" "85123A")
                    (table (router_put sample_Date sample_toFixed2 sample_table
                              "536365" "85123A" body_quantity_7))) = [7; 7]
  ∧ filter (fun r => ¬ keyed "536365" "85123A" r)
           (table (router_put sample_Date sample_toFixed2 sample_table
                     "536365" "85123A" body_quantity_7)) = [row_b].
Proof.
  assert (Hq : put_updateData sample_Date sample_toFixed2 body_quantity_7
               = inr {[ "quantity" := PNum (Num 7) ]}) by reflexivity.
  pose proof (update_rewrites_every_keyed_row sample_Date sample_toFixed2
                sample_table "536365" "85123A" body_quantity_7 _ Hq
                (insert_non_empty _ _ _)) as H.
  destruct (exec sample_table _) as [[t' [out|n|a]]|] eqn:Hex;
    try (vm_compute in Hex; discriminate Hex).
  destruct H as (_ & _ & _ & Hother & Htab & _ & H200).
  split; [reflexivity|]. split; [exact H200|].
  split; [reflexivity|]. rewrite Htab, Hother. reflexivity.
Defined.

(** the value the update object holds for quantity, invoiceDate and
    customerId when the body defines them *)
Lemma put_updateData_lookup (Date_new : JsVal → option Z)
    (toFixed2 : string → option Z) (body : gmap string JsVal)
    (u : gmap string Param) :
  put_updateData Date_new toFixed2 body = inr u →
  (defined (field body "quantity") = true →
     u !! "quantity" = Some (PNum (parseInt (field body "quantity"))))
  ∧ (defined (field body "invoiceDate") = true →
     u !! "invoiceDate" = Some (PDate (Date_new (field body "invoiceDate"))))
  ∧ (defined (field body "unitPrice") = true →
     u !! "unitPrice"
     = Some (PFixed (toFixed2 (ToString (field body "unitPrice"))))).
Proof.
  unfold put_updateData. intros H.
  destruct (defined (field body "description"));
  destruct (defined (field body "quantity"));
  destruct (defined (field body "invoiceDate"));
  destruct (defined (field body "unitPrice"));
  destruct (defined (field body "customerId"));
  destruct (defined (field body "country"));
  cbn [andb] in H;
  repeat match type of H with
  | context [if ?b then inl _ else _] => destruct b; [discriminate H|]
  end;
  injection H as <-;
  (split; [|split]); intros Hd; try discriminate Hd; reflexivity.
Qed.

Lemma assignable_all (u : gmap string Param) (c : Column) :
  assignable u = true → is_Some (assigned u (fun _ => CNull) c).
Proof.
  unfold assignable. rewrite forallb_forall. intros H.
  eapply bool_decide_eq_true_1, H. destruct c; simpl; tauto.
Qed.

(** X9 — Update, validation passed but a value cannot be stored: when the
    body defines a quantity whose [parseInt] is NaN although [isNaN] let it
    pass (null, the empty string, [true]), or an invoiceDate that is no
    date, or a price text the column refuses, the statement is issued and
    fails, the handler answers 500 (not 400), and the table is as before,
    whether or not a row has the key. *)
Theorem update_unstorable_is_500 (Date_new : JsVal → option Z)
    (toFixed2 : string → option Z) (t : Table) (i s : string)
    (body : gmap string JsVal) (u : gmap string Param) :
  put_updateData Date_new toFixed2 body = inr u →
  (defined (field body "quantity") = true
   ∧ parseInt (field body "quantity") = NaN)
  ∨ (defined (field body "invoiceDate") = true
     ∧ Date_new (field body "invoiceDate") = None)
  ∨ (defined (field body "unitPrice") = true
     ∧ toFixed2 (ToString (field body "unitPrice")) = None) →
  router_put Date_new toFixed2 t i s body
  = mkOutcome 500 (Failure "Failed to update sales record") t
      [Update u (key_where i s)].
Proof.
  intros Hu Hbad.
  destruct (put_updateData_lookup _ _ _ _ Hu) as (Lq & Ld & Lp).
  assert (Hc : ∃ c p, u !! col_name c = Some p ∧ assign c p = None).
  { destruct Hbad as [[Hd Hn]|[[Hd Hn]|[Hd Hn]]].
    - exists C_quantity, (PNum NaN). rewrite <- Hn. split; [apply Lq, Hd|].
      rewrite Hn. reflexivity.
    - exists C_invoiceDate, (PDate None). rewrite <- Hn. split; [apply Ld, Hd|].
      rewrite Hn. reflexivity.
    - exists C_unitPrice, (PFixed None). rewrite <- Hn. split; [apply Lp, Hd|].
      rewrite Hn. reflexivity. }
  destruct Hc as (c & p & Hl & Ha).
  assert (Hna : assignable u = false).
  { destruct (assignable u) eqn:E; [|reflexivity].
    pose proof (assignable_all u c E) as [x Hx].
    unfold assigned in Hx. rewrite Hl, Ha in Hx. discriminate. }
  assert (Hne : size u ≠ 0%nat).
  { apply map_size_non_empty_iff. intros ->. rewrite lookup_empty in Hl.
    discriminate. }
  unfold router_put. rewrite Hu, (bool_decide_eq_false_2 _ Hne).
  unfold exec. rewrite bind_key_where. cbn [mbind option_bind]. rewrite Hna.
  reflexivity.
Qed.

Lemma update_unstorable_is_500_witness :
  router_put sample_Date sample_toFixed2 sample_table "536365" "85123A"
    body_quantity_null
  = mkOutcome 500 (Failure "Failed to update sales record") sample_table
      [Update {[ "quantity" := PNum NaN ]} (key_where "536365" "85123A")].
Proof.
  assert (Hq : put_updateData sample_Date sample_toFixed2 body_quantity_null
               = inr {[ "quantity" := PNum NaN ]}) by reflexivity.
  apply (update_unstorable_is_500 _ _ _ _ _ _ _ Hq).
  left. split; reflexivity.
Defined.

(* ===================================================================== *)
(** ** Delete: what is left *)
(* ===================================================================== *)

(** X10 — Delete then Get-one: whatever the delete answered, a lookup of the
    deleted key answers not-found afterwards; a lookup of any other key
    answers as before the delete; and the table has lost exactly the rows
    that had the key. *)
Theorem delete_then_get_one (t : Table) (i s i' s' : string) :
  router_get_one (table (router_delete t i s)) i s
  = mkOutcome 404 (Failure "Sales record not found") (table (router_delete t i s))
      [Select (Some (key_where i s)) None (Some (Num 1)) None]
  ∧ ((i' = i ∧ s' = s)
     ∨ reply (router_get_one (table (router_delete t i s)) i' s')
       = reply (router_get_one t i' s'))
  ∧ (length (table (router_delete t i s)) + length (filter (keyed i s) t)
     = length t)%nat.
Proof.
  assert (Htab : table (router_delete t i s) = filter (fun r => ¬ keyed i s r) t).
  { rewrite router_delete_eq. destruct (filter (keyed i s) t); reflexivity. }
  rewrite Htab. split; [|split].
  - rewrite router_get_one_eq. cbv zeta.
    rewrite (filter_none (keyed i s)); [reflexivity|].
    intros x Hx. apply list_elem_of_filter in Hx. tauto.
  - destruct (decide (i' = i ∧ s' = s)) as [Heq|Hne]; [left; exact Heq|right].
    rewrite !router_get_one_eq. cbv zeta.
    assert (Hsame : filter (keyed i' s') (filter (fun r => ¬ keyed i s r) t)
                    = filter (keyed i' s') t).
    { rewrite (list_filter_filter (keyed i' s') (fun r => ¬ keyed i s r)).
      apply list_filter_iff. intros r.
      unfold keyed. split; [tauto|]. intros [<- <-]. tauto. }
    rewrite Hsame. destruct (filter (keyed i' s') t); reflexivity.
  - pose proof (filter_app_complement (keyed i s) t) as Hp.
    apply Permutation_length in Hp. rewrite length_app in Hp.
    rewrite Nat.add_comm. exact Hp.
Qed.

(* ===================================================================== *)
(** ** Update: the values written *)
(* ===================================================================== *)

(** X8 — Update, the values written: in every row the update returns,
    quantity is [parseInt(quantity)], invoiceDate is [new Date(invoiceDate)]
    and unitPrice is [parseFloat(unitPrice).toFixed(2)] whenever the body
    defines the field. *)
Theorem updated_row_fields (Date_new : JsVal → option Z)
    (toFixed2 : string → option Z) (t t' : Table) (i s : string)
    (body : gmap string JsVal) (u : gmap string Param) (out : list Row) :
  put_updateData Date_new toFixed2 body = inr u →
  exec t (Update u (key_where i s)) = Some (t', Rows out) →
  Forall (fun r =>
            (defined (field body "quantity") = true →
               parseInt (field body "quantity") = Num (quantity r))
            ∧ (defined (field body "invoiceDate") = true →
               Date_new (field body "invoiceDate") = Some (invoiceDate r))
            ∧ (defined (field body "unitPrice") = true →
               toFixed2 (ToString (field body "unitPrice")) = Some (unitPrice r)))
         out.
Proof.
  intros Hu Hex.
  destruct (put_updateData_lookup _ _ _ _ Hu) as (Lq & Ld & Lp).
  apply exec_update_inv, rewrite_rows_out in Hex.
  eapply Forall_impl; [exact Hex|]. intros r' (r & _ & _ & Hrow).
  pose proof (row_of_cells_cell _ _ Hrow) as Hc. unfold assigned in Hc.
  split; [|split]; intros Hd.
  - specialize (Hc C_quantity). simpl in Hc. rewrite (Lq Hd) in Hc. simpl in Hc.
    destruct (parseInt (field body "quantity")) as [|z]; [discriminate|].
    destruct (in_int4 z); congruence.
  - specialize (Hc C_invoiceDate). simpl in Hc. rewrite (Ld Hd) in Hc.
    simpl in Hc. destruct (Date_new _) as [d|]; [|discriminate].
    destruct (in_timestamp d); congruence.
  - specialize (Hc C_unitPrice). simpl in Hc. rewrite (Lp Hd) in Hc.
    simpl in Hc. destruct (toFixed2 _); congruence.
Qed.

Lemma updated_row_fields_witness :
  Forall (fun r => parseInt (field body_quantity_7 "quantity") = Num (quantity r))
    [mkRow "536365" "85123A" (Some "WHITE HANGING HEART T-LIGHT HOLDER") 7
           1291191960000 255 (Some 17850) "United Kingdom";
     mkRow "536365" "85123A" (Some "DUPLICATE") 7 1293840000001 100 (Some 12583)
           "France"].
Proof.
  assert (Hq : put_updateData sample_Date sample_toFixed2 body_quantity_7
               = inr {[ "quantity" := PNum (Num 7) ]}) by reflexivity.
  assert (Hex : exec sample_table
                  (Update {[ "quantity" := PNum (Num 7) ]}
                          (key_where "536365" "85123A"))
                = Some ([mkRow "536365" "85123A"
                           (Some "WHITE HANGING HEART T-LIGHT HOLDER") 7
                           1291191960000 255 (Some 17850) "United Kingdom";
                         row_b;
                         mkRow "536365" "85123A" (Some "DUPLICATE") 7
                           1293840000001 100 (Some 12583) "France"],
                        Rows [mkRow "536365" "85123A"
                                (Some "WHITE HANGING HEART T-LIGHT HOLDER") 7
                                1291191960000 255 (Some 17850) "United Kingdom";
                              mkRow "536365" "85123A" (Some "DUPLICATE") 7
                                1293840000001 100 (Some 12583) "France"]))
    by reflexivity.
  pose proof (updated_row_fields sample_Date sample_toFixed2 sample_table _
                "536365" "85123A" body_quantity_7 _ _ Hq Hex) as H.
  eapply Forall_impl; [exact H|]. intros r (Hr & _). apply Hr. reflexivity.
Defined.

(* ===================================================================== *)
(** ** Listing: a filter that does not bind *)
(* ===================================================================== *)

(** X13 — List with a filter value that does not convert: a customerId
    whose [parseInt] is NaN, or a startDate or endDate that is no date,
    still goes into the statement; the statement fails and the answer is
    500, not 400. *)
Theorem list_unbound_filter_is_500 (Date_new : JsVal → option Z) (t : Table)
    (query : gmap string string) (s : string) :
  (supplied query "customerId" = Some s ∧ parseInt (VStr s) = NaN)
  ∨ (supplied query "startDate" = Some s ∧ Date_new (VStr s) = None)
  ∨ (supplied query "endDate" = Some s ∧ Date_new (VStr s) = None) →
  router_get_root Date_new t query
  = mkOutcome 500 (Failure "Failed to fetch sales records") t
      [list_select Date_new query; list_count Date_new query].
Proof.
  intros Hbad.
  assert (Hb : bind_where (where_of (list_conditions Date_new query)) = None).
  { rewrite bind_where_of. apply mapM_None.
    rewrite list_conditions_eq. unfold filter_comparisons.
    rewrite !Exists_app.
    destruct Hbad as [[Hs Hn]|[[Hs Hn]|[Hs Hn]]]; rewrite Hs; simpl.
    - right. left. left. simpl. rewrite Hn. reflexivity.
    - right. right. left. left. simpl. rewrite Hn. reflexivity.
    - right. right. right. left. simpl. rewrite Hn. reflexivity. }
  unfold router_get_root, list_select, list_count, exec. rewrite Hb. reflexivity.
Qed.

Lemma list_unbound_filter_is_500_witness :
  router_get_root sample_Date sample_table query_customer_abc
  = mkOutcome 500 (Failure "Failed to fetch sales records") sample_table
      [list_select sample_Date query_customer_abc;
       list_count sample_Date query_customer_abc].
Proof.
  apply (list_unbound_filter_is_500 sample_Date sample_table query_customer_abc
           "abc").
  left. split; reflexivity.
Defined.

(* ===================================================================== *)
(** ** Listing: the size and the order of a page *)
(* ===================================================================== *)

Lemma sort_by_length (le : Row → Row → bool) (l : list Row) :
  length (sort_by le l) = length l.
Proof. apply Permutation_length, sort_by_perm. Qed.

(** the offset of a listing whose page and size are numbers: the double
    of (page - 1) * size, which is that product below 2^53 *)
Lemma list_offset_eq (query : gmap string string) (P L : Z) :
  list_pageNum query = Num P → list_limitNum query = Num L →
  1 ≤ P ∧ 1 ≤ L ≤ 1000
  ∧ ∃ off, list_offset query = Num off ∧ 0 ≤ off
           ∧ ((P - 1) * L < 2 ^ 53 → off = (P - 1) * L).
Proof.
  intros HP HL. pose proof (list_limitNum_range _ _ HL) as HL1.
  assert (HP1 : 1 ≤ P).
  { unfold list_pageNum, Math_max in HP.
    destruct (parseInt _); [discriminate|]. injection HP as <-. lia. }
  split; [exact HP1|]. split; [exact HL1|].
  unfold list_offset. rewrite HP, HL.
  destruct (js_sub_one P HP1) as (a & -> & Ha & Hex).
  destruct (js_mul_limit a L Ha HL1) as [-> Hn].
  eexists. split; [reflexivity|]. split; [exact Hn|].
  intros Hs. assert (HP2 : P - 1 < 2 ^ 53) by nia.
  rewrite (Hex HP2). apply to_double_exact. nia.
Qed.

(** the data statement of a listing whose page and size are numbers *)
Lemma exec_list_select_eq (Date_new : JsVal → option Z) (t : Table)
    (query : gmap string string) (bs : list BCond) (L off : Z) :
  bind_where (where_of (list_conditions Date_new query)) = Some bs →
  writable (list_sortField query) = true →
  list_limitNum query = Num L →
  list_offset query = Num off → in_int8 off = true →
  exec t (list_select Date_new query)
  = Some (t, Rows (take (Z.to_nat L)
                     (drop (Z.to_nat off)
                        (sort_by (row_leb (list_orderBy query)) (selected bs t))))).
Proof.
  intros Hb Hw HL Hoff Hfit.
  pose proof (list_limitNum_range _ _ HL) as HL1.
  pose proof (list_offset_nonneg _ _ Hoff) as Hn.
  unfold list_select, exec. rewrite Hb, Hoff, HL. cbn [mbind option_bind].
  unfold sql_order. rewrite order_field_list, Hw. cbn [mbind option_bind].
  unfold sql_offset.
  destruct (off =? 0) eqn:E0.
  - apply Z.eqb_eq in E0. rewrite E0. cbn [mbind option_bind]. unfold sql_limit.
    replace (0 <=? L) with true by (symmetry; apply Z.leb_le; lia).
    replace (in_int8 L) with true
      by (symmetry; unfold in_int8; apply andb_true_iff; split; apply Z.leb_le; lia).
    reflexivity.
  - apply Z.eqb_neq in E0. rewrite Hfit.
    replace (0 <? off) with true by (symmetry; apply Z.ltb_lt; lia).
    cbn [andb mbind option_bind]. unfold sql_limit.
    replace (0 <=? L) with true by (symmetry; apply Z.leb_le; lia).
    replace (in_int8 L) with true
      by (symmetry; unfold in_int8; apply andb_true_iff; split; apply Z.leb_le; lia).
    reflexivity.
Qed.

(** X11 — List, size of a page: when the filter binds, the sort field can be
    written, page and limit are the numbers P and L (after clamping and
    rounding to doubles) and the engine takes the offset, the page holds
    min(L, max(0, total - offset)) rows, never more than 1000; the offset is
    (P - 1) * L when that is below 2^53, and then the page holds L rows
    before the last page, the rest on the last, none beyond it
    (P > totalPages). *)
Theorem list_page_size (Date_new : JsVal → option Z) (t : Table)
    (query : gmap string string) (bs : list BCond) (P L off : Z) :
  bind_where (where_of (list_conditions Date_new query)) = Some bs →
  writable (list_sortField query) = true →
  list_pageNum query = Num P → list_limitNum query = Num L →
  list_offset query = Num off → in_int8 off = true →
  ∃ records,
    reply (router_get_root Date_new t query)
    = Listing records (Num P) (Num L) (Z.of_nat (length (selected bs t)))
        (Num (ceil_div (Z.of_nat (length (selected bs t))) L))
    ∧ Z.of_nat (length records)
      = Z.min L (Z.max 0 (Z.of_nat (length (selected bs t)) - off))
    ∧ Z.of_nat (length records) ≤ 1000
    ∧ ((P - 1) * L < 2 ^ 53 →
       off = (P - 1) * L
       ∧ (P ≤ ceil_div (Z.of_nat (length (selected bs t))) L ∨ records = [])).
Proof.
  intros Hb Hw HP HL Hoff Hfit.
  destruct (list_offset_eq _ _ _ HP HL) as (HP1 & HL1 & off' & Hoff' & Hn & Hex).
  rewrite Hoff in Hoff'. injection Hoff' as <-.
  eexists. split.
  { unfold router_get_root.
    rewrite (exec_list_select_eq _ _ _ _ _ _ Hb Hw HL Hoff Hfit).
    unfold list_count, exec. rewrite Hb. cbn [mbind option_bind].
    rewrite HP, HL. reflexivity. }
  set (S := sort_by _ _).
  assert (HS : length S = length (selected bs t)) by apply sort_by_length.
  assert (Hlen : Z.of_nat (length (take (Z.to_nat L) (drop (Z.to_nat off) S)))
                 = Z.min L (Z.max 0 (Z.of_nat (length (selected bs t)) - off))).
  { rewrite length_take, length_drop, HS. lia. }
  split; [exact Hlen|]. split; [lia|].
  intros Hs. specialize (Hex Hs). split; [exact Hex|].
  destruct (Z_le_gt_dec P (ceil_div (Z.of_nat (length (selected bs t))) L))
    as [Hle|Hgt]; [left; exact Hle|right].
  apply length_zero_iff_nil.
  pose proof (ceil_div_spec (Z.of_nat (length (selected bs t))) L ltac:(lia)).
  nia.
Qed.

Lemma list_page_size_witness :
  ∃ records,
    reply (router_get_root sample_Date sample_table query_page_2)
    = Listing records (Num 2) (Num 2) 3 (Num 2)
    ∧ Z.of_nat (length records) = 1.
Proof.
  destruct (list_page_size sample_Date sample_table query_page_2 [] 2 2 2
              eq_refl eq_refl eq_refl eq_refl eq_refl eq_refl)
    as (records & Hr & Hl & _).
  exists records. split; [exact Hr|exact Hl].
Defined.







Lemma Sorted_take {A} (R : A → A → Prop) (n : nat) (l : list A) :
  Sorted R l → Sorted R (take n l).
Proof.
  revert l. induction n as [|n IH]; intros l Hs; [constructor|].
  destruct l as [|x l]; [constructor|]. simpl.
  inversion Hs as [|? ? Hs' Hhd]; subst. constructor; [apply IH, Hs'|].
  destruct l as [|y l]; [destruct n; constructor|]. destruct n; [constructor|].
  simpl. constructor. inversion Hhd. assumption.
Qed.



(* ===================================================================== *)
(** ** Summary: the figures, and the listing's total *)
(* ===================================================================== *)

Lemma Qc_of_Z_pos_neq_0 (n : Z) : 0 < n → Qc_of_Z n ≠ 0%Qc.
Proof.
  intros Hn He. rewrite <- Z2Qc_inj_0 in He. apply Z2Qc_inj in He. lia.
Qed.

(** the summary of a query whose filter binds *)
Lemma router_summary_eq (Date_new : JsVal → option Z) (t : Table)
    (query : gmap string string) (bs : list BCond) :
  bind_where (where_of (summary_conditions Date_new query)) = Some bs →
  router_get_analytics_summary Date_new t query
  = mkOutcome 200
      (Totals (parseFloat_of (Qcsum (map amount (selected bs t))))
              (Zsum (map quantity (selected bs t)))
              (Z.of_nat (length (selected bs t)))
              (parseFloat_or_0 (avg_sales (aggregate (selected bs t)))))
      t [SelectSummary (where_of (summary_conditions Date_new query))].
Proof.
  intros Hb. unfold router_get_analytics_summary, exec. rewrite Hb.
  cbn [mbind option_bind].
  destruct (selected bs t) as [|r rs] eqn:Es.
  - simpl. rewrite Z2Qc_inj_0. reflexivity.
  - unfold aggregate. cbn [sum_sales sum_quantity count_rows avg_sales
      parseFloat_or_0 parseInt_or_0 default].
    unfold count_or_0.
    replace (Z.of_nat (length (r :: rs)) =? 0) with false
      by (symmetry; apply Z.eqb_neq; simpl; lia).
    reflexivity.
Qed.

(** the rounding of the engine's average: [q / scale] is within half a unit
    of the last decimal of [h / (100 n)] *)
Lemma numeric_avg_spec (h n : Z) :
  0 < n →
  ∃ k q, 2 ≤ k ≤ 1000
         ∧ numeric_avg h n = (Qc_of_Z q / Qc_of_Z (10 ^ k))%Qc
         ∧ Z.abs (2 * h * 10 ^ k - 200 * n * q) ≤ 100 * n.
Proof.
  intros Hn. unfold numeric_avg.
  exists (div_scale h n). eexists. split; [|split; [reflexivity|]].
  - unfold div_scale. destruct (numeric_top h), (numeric_top (n * 100)). lia.
  - set (s := 10 ^ div_scale h n).
    assert (Hs : 0 ≤ s) by (apply Z.pow_nonneg; lia).
    set (a := 2 * Z.abs h * s + 100 * n).
    pose proof (Z.mul_div_le a (200 * n) ltac:(lia)) as H1.
    pose proof (Z.mul_succ_div_gt a (200 * n) ltac:(lia)) as H2.
    set (q := a / (200 * n)) in *. subst a.
    destruct (Z.sgn_spec h) as [[Hh ->]|[[Hh ->]|[Hh ->]]]; nia.
Qed.

Lemma Qcsum_amount (rs : list Row) :
  Qcsum (map amount rs) = (Qc_of_Z (Zsum (map amount_cents rs)) / Qc_of_Z 100)%Qc.
Proof.
  induction rs as [|r rs IH].
  - apply Qc_is_canon. reflexivity.
  - cbn [map Qcsum Zsum foldr]. fold (Qcsum (map amount rs)).
    fold (Zsum (map amount_cents rs)). rewrite IH. unfold amount, amount_cents.
    rewrite Z2Qc_inj_add. field. apply Qc_of_Z_pos_neq_0. lia.
Qed.

(** X14 — Summary, the figures: whenever the filter binds, the answer is 200
    and totalOrders is the number of rows the filter selects, totalQuantity
    the sum of their quantities, totalSales the double of the sum of
    quantity times price, a number of hundredths; averageOrderValue is 0
    over no row, and otherwise the double of the engine's average, which is
    totalSales / totalOrders rounded to some k decimals, k at least 2. *)
Theorem summary_figures (Date_new : JsVal → option Z) (t : Table)
    (query : gmap string string) (bs : list BCond) :
  bind_where (where_of (summary_conditions Date_new query)) = Some bs →
  ∃ average : Qc,
    router_get_analytics_summary Date_new t query
    = mkOutcome 200
        (Totals (parseFloat_of (Qcsum (map amount (selected bs t))))
                (Zsum (map quantity (selected bs t)))
                (Z.of_nat (length (selected bs t)))
                (parseFloat_of average))
        t [SelectSummary (where_of (summary_conditions Date_new query))]
    ∧ Qcsum (map amount (selected bs t))
      = (Qc_of_Z (Zsum (map amount_cents (selected bs t))) / Qc_of_Z 100)%Qc
    ∧ (selected bs t = [] → average = 0%Qc)
    ∧ (selected bs t ≠ [] →
       ∃ k q, 2 ≤ k ≤ 1000
              ∧ average = (Qc_of_Z q / Qc_of_Z (10 ^ k))%Qc
              ∧ Z.abs (2 * Zsum (map amount_cents (selected bs t)) * 10 ^ k
                       - 200 * Z.of_nat (length (selected bs t)) * q)
                ≤ 100 * Z.of_nat (length (selected bs t))).
Proof.
  intros Hb. exists (decimal (parseFloat_or_0 (avg_sales (aggregate (selected bs t))))).
  split; [apply router_summary_eq, Hb|].
  split; [apply Qcsum_amount|].
  destruct (selected bs t) as [|r rs].
  - split; [reflexivity|]. intros Hne. contradiction.
  - split; [discriminate|]. intros _.
    unfold aggregate. cbn [avg_sales parseFloat_or_0 default decimal].
    apply numeric_avg_spec. cbn [length]. lia.
Qed.

Lemma summary_figures_witness :
  reply (router_get_analytics_summary sample_Date sample_table ∅)
  = Totals (parseFloat_of (Qc_of_Z 8830 / Qc_of_Z 100)%Qc) 31 3
           (parseFloat_of (Qc_of_Z 294333333333333333 / Qc_of_Z (10 ^ 16))%Qc).
Proof.
  assert (Hb : bind_where (where_of (summary_conditions sample_Date ∅)) = Some [])
    by reflexivity.
  destruct (summary_figures sample_Date sample_table ∅ [] Hb)
    as (average & Hrun & Hsum & _ & _).
  rewrite Hrun. cbn [reply]. rewrite Hsum.
  assert (Hrun' := Hrun). rewrite (router_summary_eq _ _ _ _ Hb) in Hrun'.
  injection Hrun' as <-.
  f_equal; f_equal; apply Qc_is_canon; vm_compute; reflexivity.
Defined.

Lemma summary_conditions_eq (Date_new : JsVal → option Z)
    (query : gmap string string) :
  summary_conditions Date_new query
  = (from_option (fun s => [sql_gte C_invoiceDate (PDate (Date_new (VStr s)))]) []
       (supplied query "startDate") ++
     from_option (fun s => [sql_lte C_invoiceDate (PDate (Date_new (VStr s)))]) []
       (supplied query "endDate") ++
     from_option (fun s => [sql_eq C_country (PVal (VStr s))]) []
       (supplied query "country"))%list.
Proof.
  unfold summary_conditions.
  repeat match goal with
  | |- context [supplied query ?k] =>
      let E := fresh "E" in
      destruct (supplied query k) as [?|] eqn:E;
      [ destruct (supplied_Some _ _ _ E) as [-> ->]
      | rewrite (supplied_None _ _ E) ]
  end; reflexivity.
Qed.

(** without a customerId the summary filter binds when the listing filter
    does, and selects the same rows *)
Lemma summary_selects_like_list (Date_new : JsVal → option Z)
    (query : gmap string string) (bs : list BCond) :
  supplied query "customerId" = None →
  bind_where (where_of (list_conditions Date_new query)) = Some bs →
  ∃ bs', bind_where (where_of (summary_conditions Date_new query)) = Some bs'
         ∧ ∀ t, selected bs' t = selected bs t.
Proof.
  intros Hc Hb.
  rewrite bind_where_of, list_conditions_eq in Hb.
  rewrite bind_where_of, summary_conditions_eq.
  unfold filter_comparisons in Hb. rewrite Hc in Hb.
  destruct (supplied query "country") as [c|];
  destruct (supplied query "startDate") as [a|];
  destruct (supplied query "endDate") as [b|];
  cbn in Hb |- *;
  repeat match type of Hb with
  | context [Date_new ?v] => destruct (Date_new v) as [?|] eqn:?; cbn in Hb |- *
  | context [in_timestamp ?z] => destruct (in_timestamp z) eqn:?; cbn in Hb |- *
  end;
  try discriminate Hb; injection Hb as <-;
  (eexists; split; [reflexivity|]);
  intros t; apply list_filter_iff; intros r;
  rewrite ?matches_cons, ?matches_nil; tauto.
Qed.

(** X15 — Summary and List agree: for a query without customerId whose
    listing succeeds, the summary of the same country and date range
    succeeds too and its totalOrders is the listing's total. *)
Theorem summary_orders_is_list_total (Date_new : JsVal → option Z) (t : Table)
    (query : gmap string string) (records : list Row) (page limit : JsNum)
    (total : Z) (totalPages : JsNum) :
  supplied query "customerId" = None →
  reply (router_get_root Date_new t query)
  = Listing records page limit total totalPages →
  ∃ sales quantities average,
    reply (router_get_analytics_summary Date_new t query)
    = Totals sales quantities total average.
Proof.
  intros Hc. unfold router_get_root.
  destruct (exec t (list_select Date_new query)) as [[t1 [rs|n|a]]|] eqn:Ex;
    destruct (exec t (list_count Date_new query)) as [[t2 [rs2|n2|a2]]|] eqn:Ec;
    try discriminate.
  intros [= _ _ _ <- _]. clear Ex.
  unfold list_count, exec in Ec.
  destruct (bind_where (where_of (list_conditions Date_new query))) as [bs|] eqn:Hb;
    [|discriminate].
  cbn [mbind option_bind] in Ec. injection Ec as _ <-.
  destruct (summary_selects_like_list _ _ _ Hc Hb) as (bs' & Hb' & Hsel).
  rewrite (router_summary_eq Date_new t query bs' Hb'), Hsel. cbn [reply]. eauto.
Qed.

Lemma summary_orders_is_list_total_witness :
  ∃ sales quantities average,
    reply (router_get_analytics_summary sample_Date sample_table query_france_2011)
    = Totals sales quantities 2 average.
Proof.
  assert (Hrun : reply (router_get_root sample_Date sample_table query_france_2011)
                 = Listing [row_dup; row_b] (Num 1) (Num 50) 2 (Num 1))
    by reflexivity.
  exact (summary_orders_is_list_total sample_Date sample_table query_france_2011
           _ _ _ _ _ eq_refl Hrun).
Defined.

(* ===================================================================== *)
(** ** Top products *)
(* ===================================================================== *)

Lemma top_products_limit_range (query : gmap string string) (l : Z) :
  top_products_limitNum query = Num l → 1 ≤ l ≤ 100.
Proof.
  unfold top_products_limitNum, Math_min, Math_max.
  destruct (parseInt _); [discriminate|]. intros [= <-]. lia.
Qed.

(** the items keep the keys and the quantities of the groups *)
Lemma product_item_keys (l : list GroupRow) :
  map (fun p => (p_stockCode p, p_description p)) (map product_item l)
  = map (fun g => (g_stockCode g, g_description g)) l.
Proof. rewrite map_map. reflexivity. Qed.

Lemma product_item_quantities (l : list GroupRow) :
  map p_totalQuantity (map product_item l) = map g_totalQuantity l.
Proof. rewrite map_map. reflexivity. Qed.

Lemma Sorted_map {A B} (f : A → B) (R : B → B → Prop) (l : list A) :
  Sorted (fun x y => R (f x) (f y)) l → Sorted R (map f l).
Proof.
  induction 1 as [|x l Hs IH Hhd]; simpl; constructor; [exact IH|].
  destruct Hhd; simpl; constructor. assumption.
Qed.

Lemma insert_sorted_perm {A} (le : A → A → bool) (x : A) (l : list A) :
  insert_sorted le x l ≡ₚ x :: l.
Proof.
  induction l as [|y l IH]; simpl; [reflexivity|].
  destruct (le x y); [reflexivity|]. rewrite IH. apply Permutation_swap.
Qed.

Lemma isort_perm {A} (le : A → A → bool) (l : list A) : isort le l ≡ₚ l.
Proof.
  induction l as [|x l IH]; simpl; [reflexivity|].
  rewrite insert_sorted_perm. f_equiv. exact IH.
Qed.

Lemma insert_sorted_sorted {A} (le : A → A → bool) (x : A) (l : list A) :
  (∀ u v, le u v = false → le v u = true) →
  Sorted (fun u v => le u v = true) l →
  Sorted (fun u v => le u v = true) (insert_sorted le x l).
Proof.
  intros Htot. induction l as [|y l IH]; intros Hs; simpl.
  - repeat constructor.
  - destruct (le x y) eqn:E.
    + constructor; [exact Hs|]. constructor. exact E.
    + inversion Hs as [|? ? Hs' Hhd]; subst. constructor; [apply IH, Hs'|].
      destruct l as [|z l]; simpl.
      * constructor. apply Htot, E.
      * destruct (le x z); constructor; try (apply Htot, E).
        inversion Hhd. assumption.
Qed.

Lemma isort_sorted {A} (le : A → A → bool) (l : list A) :
  (∀ u v, le u v = false → le v u = true) →
  Sorted (fun u v => le u v = true) (isort le l).
Proof.
  intros Htot. induction l as [|x l IH]; simpl; [constructor|].
  apply insert_sorted_sorted; assumption.
Qed.

Lemma more_sold_total (x y : GroupRow) :
  more_sold x y = false → more_sold y x = true.
Proof. unfold more_sold. intros H. apply Z.leb_gt in H. apply Z.leb_le. lia. Qed.

Lemma product_of_key (rs : list Row) (k : string * option string) :
  (g_stockCode (product_of rs k), g_description (product_of rs k)) = k.
Proof. destruct k. reflexivity. Qed.

Lemma sql_group_keys (rs : list Row) :
  map (fun g => (g_stockCode g, g_description g)) (sql_group rs)
  = remove_dups (map product_key rs).
Proof.
  unfold sql_group. generalize (remove_dups (map product_key rs)) as ks.
  induction ks as [|k ks IH]; [reflexivity|].
  cbn [map]. rewrite product_of_key. f_equal. exact IH.
Qed.

(** the grouped select of a query whose filter binds: the sorted groups,
    cut at the limit when that is a number *)
Lemma exec_top_products_eq (t : Table) (w : option Where) (bs : list BCond)
    (query : gmap string string) :
  bind_where w = Some bs →
  exec_top_products t w (top_products_limitNum query)
  = Some (match top_products_limitNum query with
          | Num l => take (Z.to_nat l) (isort more_sold (sql_group (selected bs t)))
          | NaN => isort more_sold (sql_group (selected bs t))
          end).
Proof.
  intros Hb. unfold exec_top_products. rewrite Hb. cbn [mbind option_bind].
  unfold sql_limit_of.
  destruct (top_products_limitNum query) as [|l] eqn:El; [reflexivity|].
  apply top_products_limit_range in El.
  replace (0 <=? l) with true by (symmetry; apply Z.leb_le; lia).
  replace (in_int8 l) with true
    by (symmetry; unfold in_int8; apply andb_true_iff; split; apply Z.leb_le; lia).
  reflexivity.
Qed.

(** X16 — Top products over an empty match: whenever the filter binds and
    selects no row the answer is 200 with an empty list. *)
Theorem top_products_of_no_rows (Date_new : JsVal → option Z) (t : Table)
    (query : gmap string string) (bs : list BCond) :
  bind_where (where_of (top_products_conditions Date_new query)) = Some bs →
  selected bs t = [] →
  router_get_analytics_top_products Date_new t query
  = mkTopOutcome 200 (TopProducts []) t.
Proof.
  intros Hb Hs. unfold router_get_analytics_top_products.
  rewrite (exec_top_products_eq _ _ _ _ Hb), Hs.
  destruct (top_products_limitNum query); [reflexivity|].
  simpl. rewrite take_nil. reflexivity.
Qed.

Lemma top_products_of_no_rows_witness :
  router_get_analytics_top_products sample_Date sample_table query_before_2010
  = mkTopOutcome 200 (TopProducts []) sample_table.
Proof.
  assert (Hb : bind_where (where_of (top_products_conditions sample_Date
                                       query_before_2010))
               = Some [(OpLte, C_invoiceDate, CTime 1291161600000)])
    by reflexivity.
  exact (top_products_of_no_rows sample_Date sample_table query_before_2010 _ Hb
           eq_refl).
Defined.

(** X17 — Top products: whenever the filter binds the answer is 200; when
    the limit is a number (between 1 and 100) there are as many items as
    groups, but no more than the limit, and when the limit is NaN there is
    no LIMIT clause and every group is an item; no two items share the pair
    (stockCode, description); each item stands for at least one selected
    row, its totalQuantity and totalRevenue are the sums over the selected
    rows of its pair and its averagePrice is the engine's average of their
    prices; and the items come with totalQuantity never increasing. *)
Theorem top_products_items (Date_new : JsVal → option Z) (t : Table)
    (query : gmap string string) (bs : list BCond) :
  bind_where (where_of (top_products_conditions Date_new query)) = Some bs →
  ∃ data,
    router_get_analytics_top_products Date_new t query
    = mkTopOutcome 200 (TopProducts data) t
    ∧ match top_products_limitNum query with
      | Num l =>
          1 ≤ l ≤ 100
          ∧ Z.of_nat (length data)
            = Z.min l (Z.of_nat (length (remove_dups
                                           (map product_key (selected bs t)))))
      | NaN =>
          length data = length (remove_dups (map product_key (selected bs t)))
      end
    ∧ NoDup (map (fun p => (p_stockCode p, p_description p)) data)
    ∧ Forall (fun p =>
                let g := group_rows (p_stockCode p, p_description p)
                                    (selected bs t) in
                g ≠ []
                ∧ p_totalQuantity p = Zsum (map quantity g)
                ∧ p_totalRevenue p = parseFloat_of (Qcsum (map amount g))
                ∧ p_averagePrice p
                  = parseFloat_of (numeric_avg (Zsum (map unitPrice g))
                                               (Z.of_nat (length g)))) data
    ∧ Sorted (fun x y => p_totalQuantity y ≤ p_totalQuantity x) data.
Proof.
  intros Hb. unfold router_get_analytics_top_products.
  rewrite (exec_top_products_eq _ _ _ _ Hb).
  set (sel := selected bs t). set (G := isort more_sold (sql_group sel)).
  assert (HG : G ≡ₚ sql_group sel) by apply isort_perm.
  assert (HlG : length G = length (remove_dups (map product_key sel))).
  { rewrite HG. unfold sql_group. apply length_map. }
  assert (Hnd : NoDup (map (fun g => (g_stockCode g, g_description g)) G)).
  { rewrite HG, sql_group_keys. apply NoDup_remove_dups. }
  assert (Hall : Forall (fun x =>
                let p := product_item x in
                let g := group_rows (p_stockCode p, p_description p) sel in
                g ≠ []
                ∧ p_totalQuantity p = Zsum (map quantity g)
                ∧ p_totalRevenue p = parseFloat_of (Qcsum (map amount g))
                ∧ p_averagePrice p
                  = parseFloat_of (numeric_avg (Zsum (map unitPrice g))
                                               (Z.of_nat (length g)))) G).
  { rewrite HG. unfold sql_group. apply Forall_forall. intros p Hp.
    apply list_elem_of_In, in_map_iff in Hp. destruct Hp as (k & <- & Hk).
    apply list_elem_of_In, elem_of_remove_dups, list_elem_of_In, in_map_iff in Hk.
    destruct Hk as (r & Hr & Hin). cbv zeta.
    change (p_stockCode (product_item (product_of sel k)),
            p_description (product_item (product_of sel k)))
      with (g_stockCode (product_of sel k), g_description (product_of sel k)).
    rewrite product_of_key.
    split; [|repeat split].
    intros Hnil.
    assert (Hin' : r ∈ group_rows k sel).
    { apply list_elem_of_filter. split; [exact Hr|apply list_elem_of_In, Hin]. }
    rewrite Hnil in Hin'. inversion Hin'. }
  assert (Hso : Sorted (fun x y => g_totalQuantity y ≤ g_totalQuantity x) G).
  { pose proof (isort_sorted more_sold (sql_group sel) more_sold_total) as Hs.
    fold G in Hs. clear -Hs. induction Hs as [|x l Hs IH Hhd]; constructor.
    - exact IH.
    - destruct Hhd as [|y l Hxy]; constructor. apply Z.leb_le, Hxy. }
  destruct (top_products_limitNum query) as [|l] eqn:El.
  - exists (map product_item G). split; [reflexivity|].
    split; [rewrite length_map; exact HlG|].
    split; [rewrite product_item_keys; exact Hnd|].
    split; [apply Forall_map, Hall|].
    apply Sorted_map, Hso.
  - apply top_products_limit_range in El.
    exists (map product_item (take (Z.to_nat l) G)). split; [reflexivity|].
    split.
    { split; [exact El|]. rewrite length_map, length_take, <- HlG. lia. }
    split.
    { rewrite product_item_keys.
      rewrite <- (take_drop (Z.to_nat l) G), map_app in Hnd.
      apply NoDup_app in Hnd. tauto. }
    split; [apply Forall_map, Forall_take, Hall|].
    apply Sorted_map, Sorted_take, Hso.
Qed.

Lemma top_products_items_witness :
  ∃ data,
    router_get_analytics_top_products sample_Date sample_table ∅
    = mkTopOutcome 200 (TopProducts data) sample_table
    ∧ map p_totalQuantity data = [24; 6; 1]
    ∧ NoDup (map (fun p => (p_stockCode p, p_description p)) data).
Proof.
  assert (Hb : bind_where (where_of (top_products_conditions sample_Date ∅))
               = Some []) by reflexivity.
  destruct (top_products_items sample_Date sample_table ∅ [] Hb)
    as (data & Hrun & _ & Hnd & _).
  exists data. split; [exact Hrun|]. split; [|exact Hnd].
  injection Hrun as <-. reflexivity.
Defined.

Lemma Zsum_perm (l k : list Z) : l ≡ₚ k → Zsum l = Zsum k.
Proof.
  induction 1 as [|x l k _ IH|x y l|l k m _ IH1 _ IH2]; simpl; lia.
Qed.

Lemma Zsum_pick (ks : list (string * option string))
    (k0 : string * option string) (q : Z) :
  NoDup ks → k0 ∈ ks →
  Zsum (map (fun k => if decide (k0 = k) then q else 0) ks) = q.
Proof.
  induction 1 as [|k ks Hk Hnd IH]; intros Hin; [inversion Hin|].
  simpl. apply elem_of_cons in Hin. destruct (decide (k0 = k)) as [->|Hne].
  - assert (Hz : Zsum (map (fun k1 => if decide (k = k1) then q else 0) ks) = 0).
    { clear -Hk. induction ks as [|k1 ks IH]; [reflexivity|]. simpl.
      destruct (decide (k = k1)) as [->|_]; [exfalso; apply Hk; left|].
      rewrite IH; [reflexivity|]. intros H. apply Hk. right. exact H. }
    fold (Zsum (map (fun k1 => if decide (k = k1) then q else 0) ks)).
    rewrite Hz. lia.
  - destruct Hin as [Heq|Hin]; [contradiction|].
    fold (Zsum (map (fun k1 => if decide (k0 = k1) then q else 0) ks)).
    rewrite (IH Hin). lia.
Qed.

(** the group sums of a list of keys that has every key once add up to the
    sum over all rows *)
Lemma group_sums_add_up (rs : list Row) (ks : list (string * option string)) :
  NoDup ks → (∀ r, r ∈ rs → product_key r ∈ ks) →
  Zsum (map (fun k => Zsum (map quantity (group_rows k rs))) ks)
  = Zsum (map quantity rs).
Proof.
  intros Hnd. induction rs as [|r rs IH]; intros Hin.
  - clear. induction ks as [|k ks IHk]; [reflexivity|].
    simpl in *. exact IHk.
  - assert (Hsplit : ∀ ks', 
        Zsum (map (fun k => Zsum (map quantity (group_rows k (r :: rs)))) ks')
        = Zsum (map (fun k => if decide (product_key r = k)
                              then quantity r else 0) ks')
          + Zsum (map (fun k => Zsum (map quantity (group_rows k rs))) ks')).
    { induction ks' as [|k ks' IHk]; [reflexivity|].
      cbn [map Zsum foldr]. unfold Zsum in IHk |- *. cbn [map foldr].
      rewrite IHk. unfold group_rows. rewrite filter_cons.
      destruct (decide (product_key r = k)); simpl; lia. }
    rewrite Hsplit, IH, Zsum_pick.
    + simpl. reflexivity.
    + exact Hnd.
    + apply Hin. left.
    + intros x Hx. apply Hin. right. exact Hx.
Qed.

(** X18 — Top products and Summary agree: when the limit cuts off no group,
    the totalQuantity of the items add up to the sum of the quantities of
    the selected rows, which is the totalQuantity the summary reports for
    the same date range (and no country). *)
Theorem top_products_quantities_add_up (Date_new : JsVal → option Z) (t : Table)
    (query : gmap string string) (bs : list BCond) (data : list ProductRow) :
  bind_where (where_of (top_products_conditions Date_new query)) = Some bs →
  top_reply (router_get_analytics_top_products Date_new t query)
  = TopProducts data →
  length data = length (remove_dups (map product_key (selected bs t))) →
  supplied query "country" = None →
  Zsum (map p_totalQuantity data) = Zsum (map quantity (selected bs t))
  ∧ ∃ sales orders average,
      reply (router_get_analytics_summary Date_new t query)
      = Totals sales (Zsum (map p_totalQuantity data)) orders average.
Proof.
  intros Hb Hrun Hlen Hc.
  unfold router_get_analytics_top_products in Hrun.
  rewrite (exec_top_products_eq _ _ _ _ Hb) in Hrun.
  cbn [top_reply] in Hrun. injection Hrun as Hdata.
  set (sel := selected bs t) in *. set (G := isort more_sold (sql_group sel)) in *.
  assert (HG : G ≡ₚ sql_group sel) by apply isort_perm.
  assert (HlG : length G = length (remove_dups (map product_key sel))).
  { rewrite HG. unfold sql_group. apply length_map. }
  assert (Hd : data = map product_item G).
  { destruct (top_products_limitNum query); [congruence|].
    subst data. f_equal. apply take_ge.
    rewrite length_map, length_take in Hlen. lia. }
  assert (Hsum : Zsum (map p_totalQuantity data) = Zsum (map quantity sel)).
  { rewrite Hd, product_item_quantities,
      (Zsum_perm _ (map g_totalQuantity (sql_group sel)))
      by (apply Permutation_map, HG).
    unfold sql_group. rewrite map_map. simpl.
    apply group_sums_add_up; [apply NoDup_remove_dups|].
    intros r Hr. apply elem_of_remove_dups, list_elem_of_In, in_map.
    apply list_elem_of_In, Hr. }
  split; [exact Hsum|].
  assert (Hsame : summary_conditions Date_new query
                  = top_products_conditions Date_new query).
  { unfold summary_conditions, top_products_conditions.
    rewrite (supplied_None _ _ Hc), !app_nil_r. reflexivity. }
  rewrite <- Hsame in Hb.
  rewrite (router_summary_eq Date_new t query bs Hb), Hsum. cbn [reply]. eauto.
Qed.

Lemma top_products_quantities_add_up_witness :
  Zsum [24; 6; 1] = Zsum (map quantity sample_table)
  ∧ ∃ sales orders average,
      reply (router_get_analytics_summary sample_Date sample_table ∅)
      = Totals sales (Zsum [24; 6; 1]) orders average.
Proof.
  assert (Hb : bind_where (where_of (top_products_conditions sample_Date ∅))
               = Some []) by reflexivity.
  assert (Hrun : ∃ data,
            top_reply (router_get_analytics_top_products sample_Date sample_table ∅)
            = TopProducts data
            ∧ map p_totalQuantity data = [24; 6; 1]
            ∧ length data
              = length (remove_dups (map product_key (selected [] sample_table)))).
  { eexists. split; [vm_compute; reflexivity|]. split; reflexivity. }
  destruct Hrun as (data & Hrun & Hq & Hl).
  pose proof (top_products_quantities_add_up sample_Date sample_table ∅ [] data
                Hb Hrun Hl eq_refl) as H.
  rewrite Hq in H. exact H.
Defined.

(* ===================================================================== *)
(** ** The parsers on sample inputs *)
(* ===================================================================== *)

Example parseInt_ex1 : parseInt (VStr "  42px") = Num 42. Proof. reflexivity. Qed.
Example parseInt_ex2 : parseInt (VStr "abc") = NaN. Proof. reflexivity. Qed.
Example parseInt_ex3 : parseInt (VNum "2.55") = Num 2. Proof. reflexivity. Qed.
Example parseInt_ex4 : parseInt (VStr "-0x1A") = Num (-26). Proof. reflexivity. Qed.
Example parseInt_ex5 : parseInt (VStr "") = NaN. Proof. reflexivity. Qed.
Example isNaN_ex1 : isNaN (VStr " 12 ") = false. Proof. reflexivity. Qed.
Example isNaN_ex2 : isNaN (VStr "12abc") = true. Proof. reflexivity. Qed.
Example isNaN_ex3 : isNaN (VStr "1e3") = false. Proof. reflexivity. Qed.
Example isNaN_ex4 : isNaN (VStr ".5") = false. Proof. reflexivity. Qed.
Example isNaN_ex5 : isNaN (VStr ".") = true. Proof. reflexivity. Qed.
Example isNaN_ex6 : isNaN (VStr "+0x10") = true. Proof. reflexivity. Qed.
Example isNaN_ex7 : isNaN (VStr "5.") = false. Proof. reflexivity. Qed.
Example isNaN_ex8 : isNaN (VStr "") = false. Proof. reflexivity. Qed.
Example pf_ex1 : parseFloat_isNaN (VStr "2.5abc") = false. Proof. reflexivity. Qed.
Example pf_ex2 : parseFloat_isNaN (VStr "abc") = true. Proof. reflexivity. Qed.
Example pf_ex3 : parseFloat_isNaN (VStr "-.5") = false. Proof. reflexivity. Qed.
Example pf_ex4 : parseFloat_isNaN (VStr "-Infinityx") = false. Proof. reflexivity. Qed.
Example pf_ex5 : parseFloat_isNaN VNull = true. Proof. reflexivity. Qed.

(** rounding to doubles: beyond 2^53 the digits read are not the number *)
Example parseInt_ex6 :
  parseInt (VStr "9007199254740993") = Num 9007199254740992.
Proof. reflexivity. Qed.
Example parseInt_ex7 :
  parseInt (VStr "9007199254740995") = Num 9007199254740996.
Proof. reflexivity. Qed.
Example parseInt_ex8 :
  parseInt (VStr "123456789012345678901234567890")
  = Num 123456789012345677877719597056.
Proof. reflexivity. Qed.
Example parseInt_ex9 :
  parseInt (VStr "408407740755353032575834893130694935563376699389215517290997")
  = Num 408407740755353060820359480382960483400070203529756101574656.
Proof. reflexivity. Qed.
Example to_double_overflow :
  to_double (10 ^ 308) < Infinity ∧ to_double (10 ^ 309) = Infinity
  ∧ to_double (- 10 ^ 309) = - Infinity.
Proof. repeat split. Qed.
Example list_page_beyond_2_53 :
  list_pageNum {[ "page" := "9007199254740993" ]} = Num 9007199254740992
  ∧ list_offset {[ "page" := "9007199254740993" ]} = Num 450359962737049536.
Proof. split; reflexivity. Qed.

(** white space of more than one byte: U+00A0 before and after a number *)
Example parseInt_nbsp :
  parseInt (VStr (String (ascii_of_nat 194) (String (ascii_of_nat 160) "42")))
  = Num 42.
Proof. reflexivity. Qed.
Example isNaN_nbsp :
  isNaN (VStr ("12" ++ String (ascii_of_nat 194) (String (ascii_of_nat 160) "")))
  = false.
Proof. reflexivity. Qed.
Example isNaN_bom :
  isNaN (VStr (String (ascii_of_nat 239) (String (ascii_of_nat 187)
                 (String (ascii_of_nat 191) "7")))) = false.
Proof. reflexivity. Qed.

(* ===================================================================== *)
(** ** The engine on sample inputs *)
(* ===================================================================== *)

(** [varchar(n)] counts characters, not bytes *)
Example varchar_ex1 : varchar 20 "ééééééééééé" = Some "ééééééééééé".
Proof. reflexivity. Qed.
Example varchar_ex2 : varchar 3 "abcd" = None.
Proof. reflexivity. Qed.
Example varchar_ex3 : varchar 3 "abc  " = Some "abc".
Proof. reflexivity. Qed.
Example varchar_ex4 : varchar 2 "ééé" = None.
Proof. reflexivity. Qed.

(** the timestamp takes the years 1 to 9999 *)
Example timestamp_ex1 :
  assign C_invoiceDate (PDate (Some (- 62167219200000))) = None.
Proof. reflexivity. Qed.
Example timestamp_ex2 :
  assign C_invoiceDate (PDate (Some (- 62135596800000)))
  = Some (CTime (- 62135596800000)).
Proof. reflexivity. Qed.
Example timestamp_ex3 :
  assign C_invoiceDate (PDate (Some 253402300800000)) = None.
Proof. reflexivity. Qed.

(** the average of 15.30, 72.00 and 1.00 has sixteen decimals *)
Example numeric_avg_ex1 :
  div_scale 8830 3 = 16
  ∧ numeric_avg 8830 3
    = (Qc_of_Z 294333333333333333 / Qc_of_Z (10 ^ 16))%Qc.
Proof. split; [reflexivity|]. apply Qc_is_canon. vm_compute. reflexivity. Qed.

(** sorting by a property of the table object that is not a column *)
Example sortBy_enableRLS :
  list_sortField {[ "sortBy" := "enableRLS" ]} = FProp "enableRLS"
  ∧ reply (router_get_root sample_Date sample_table {[ "sortBy" := "enableRLS" ]})
    = Listing sample_table (Num 1) (Num 50) 3 (Num 1).
Proof. split; reflexivity. Qed.
Example sortBy_proto :
  router_get_root sample_Date sample_table {[ "sortBy" := "__proto__" ]}
  = mkOutcome 500 (Failure "Failed to fetch sales records") sample_table
      [list_select sample_Date {[ "sortBy" := "__proto__" ]};
       list_count sample_Date {[ "sortBy" := "__proto__" ]}].
Proof. reflexivity. Qed.
